(** * filemanager: directory listings served over HTTP

    A shallow embedding of [filemanager.go] (package [filemanager]) and the
    properties its specification states about it.

    Go strings are byte sequences and are modelled by [string] (a list of
    8-bit [ascii] values); Go's [int] and [int64] are modelled by [Z];
    [map[string]string] is stdpp's [gmap string string]. *)

From Stdlib Require Import ZArith String Ascii List Lia Bool.
From stdpp Require Import base gmap strings list fin_maps.

Local Open Scope string_scope.
Local Open Scope Z_scope.

(** ** The parts of Go's [strings] package the handler uses *)
Module strings.

(** [s[i]], as an option: Go panics out of range. *)
Definition index (s : string) (i : nat) : option ascii := String.get i s.

(** [s[:n]] for [n <= len(s)]. *)
Definition slice_to (s : string) (n : nat) : string := String.substring 0 n s.

(** [strings.Split(s, sep)] for a separator of one byte, which is the only
    way the handler calls it: the pieces of [s] between the occurrences of
    [sep], so that an [s] without [sep] (the empty one too) gives [[s]]. *)
Fixpoint Split (s : string) (sep : ascii) : list string :=
  match s with
  | EmptyString => [EmptyString]
  | String c rest =>
      if Ascii.eqb c sep then EmptyString :: Split rest sep
      else match Split rest sep with
           | [] => [String c EmptyString]
           | p :: ps => String c p :: ps
           end
  end.

(** [strings.Join(elems, sep)]. *)
Fixpoint Join (elems : list string) (sep : string) : string :=
  match elems with
  | [] => ""
  | e :: rest =>
      match rest with
      | [] => e
      | _ :: _ => e +:+ sep +:+ Join rest sep
      end
  end.

(** [strings.HasPrefix(s, prefix)]. *)
Fixpoint HasPrefix (s prefix : string) : bool :=
  match prefix, s with
  | EmptyString, _ => true
  | String _ _, EmptyString => false
  | String p prefix', String c s' => Ascii.eqb c p && HasPrefix s' prefix'
  end.

(** [strings.Contains(s, substr)]. *)
Fixpoint Contains (s substr : string) : bool :=
  HasPrefix s substr ||
  match s with
  | EmptyString => false
  | String _ s' => Contains s' substr
  end.

(** [strings.HasSuffix(s, suffix)]:
    [len(s) >= len(suffix) && s[len(s)-len(suffix):] == suffix]. *)
Definition HasSuffix (s suffix : string) : bool :=
  (String.length suffix <=? String.length s)%nat &&
  String.eqb
    (String.substring (String.length s - String.length suffix)
       (String.length suffix) s)
    suffix.

(** [strings.TrimSuffix(s, suffix)]. *)
Definition TrimSuffix (s suffix : string) : string :=
  if HasSuffix s suffix
  then slice_to s (String.length s - String.length suffix)
  else s.

(** The byte-wise lowering of the letters [A]..[Z]. *)
Definition lowerByte (c : ascii) : ascii :=
  let n := nat_of_ascii c in
  if ((65 <=? n) && (n <=? 90))%nat then ascii_of_nat (n + 32) else c.

Fixpoint lowerASCII (s : string) : string :=
  match s with
  | EmptyString => EmptyString
  | String c s' => String (lowerByte c) (lowerASCII s')
  end.

Fixpoint isASCII (s : string) : bool :=
  match s with
  | EmptyString => true
  | String c s' => (nat_of_ascii c <? 128)%nat && isASCII s'
  end.



End strings.

(** ** [path/filepath] *)
Module filepath.

(** The loop of [filepath.Ext], from the last byte down: a separator ends
    it with no extension, a dot ends it with the suffix from that dot on.
    [suffix] holds the bytes already passed. *)
Fixpoint scanExt (reversed : list ascii) (suffix : list ascii) : list ascii :=
  match reversed with
  | [] => []
  | c :: reversed' =>
      if Ascii.eqb c "/" then []
      else if Ascii.eqb c "." then c :: suffix
      else scanExt reversed' (c :: suffix)
  end.

(** [filepath.Ext(path)], with [/] as the path separator. *)
Definition Ext (path : string) : string :=
  string_of_list_ascii (scanExt (rev (list_ascii_of_string path)) []).

End filepath.

(** ** The part of [net/url] behind [url.URL{Path: p}.String()] *)
Module url.

Definition between (lo hi : nat) (c : ascii) : bool :=
  let n := nat_of_ascii c in ((lo <=? n) && (n <=? hi))%nat.

Fixpoint mem (c : ascii) (s : string) : bool :=
  match s with
  | EmptyString => false
  | String d s' => Ascii.eqb c d || mem c s'
  end.

(** [shouldEscape(c, encodePath)]: letters, digits and the marks
    [-_.~] stay; of the reserved bytes only [?] is escaped; every other
    byte is escaped. *)
Definition shouldEscape (c : ascii) : bool :=
  if between 97 122 c || between 65 90 c || between 48 57 c then false
  else if mem c "-_.~" then false
  else if mem c "$&+,/:;=?@" then Ascii.eqb c "?"
  else true.

Definition upperhex : string := "0123456789ABCDEF".

Definition hexDigit (n : nat) : ascii :=
  match String.get n upperhex with
  | Some d => d
  | None => "0"%char
  end.

(** [escape(s, encodePath)]: each byte to escape becomes [%XY], with
    [X = upperhex[c>>4]] and [Y = upperhex[c&15]]. *)
Fixpoint escape (s : string) : string :=
  match s with
  | EmptyString => EmptyString
  | String c s' =>
      if shouldEscape c
      then String "%" (String (hexDigit (nat_of_ascii c / 16))
                        (String (hexDigit (nat_of_ascii c mod 16)) (escape s')))
      else String c (escape s')
  end.

(** A [url.URL] literal with only [Path] set, as [directoryListing] builds
    it: scheme, opaque part, host, user, raw path, query and fragment are
    empty. *)
Record URL := { Path : string }.

(** [URL.EscapedPath] with an empty [RawPath]. *)
Definition EscapedPath (u : URL) : string :=
  if String.eqb (Path u) "*" then "*" else escape (Path u).

(** [URL.String] on such a value: nothing is written before the path,
    so a first path segment holding a colon gets [./] in front
    (RFC 3986, 4.2); then the escaped path. *)
Definition String_ (u : URL) : string :=
  let path := EscapedPath u in
  let segment := hd EmptyString (strings.Split path "/") in
  (if strings.Contains segment ":" then "./" else "") +:+ path.

End url.

(** ** Errors, directory entries and the file system *)

(** The classes of [os] errors the handler tells apart: [os.IsPermission]
    and [os.IsExist] look at one underlying error number, so an error is in
    at most one class. *)
Inductive errClass := ErrPermission | ErrExist | ErrNotExist | ErrOther.

Record error := mkError { errClassOf : errClass; errText : string }.

Module os.
Definition IsPermission (e : error) : bool :=
  match errClassOf e with ErrPermission => true | _ => false end.
Definition IsExist (e : error) : bool :=
  match errClassOf e with ErrExist => true | _ => false end.

(** [time.Time]: an instant and the location it is shown in. *)
Record Time := { instant : Z; location : string }.
Definition UTC (t : Time) : Time :=
  {| instant := instant t; location := "UTC" |}.

(** What the [os.FileInfo] interface gives for one raw directory entry. *)
Record FileInfo := {
  Name : string;
  Size : Z;
  Mode : Z;
  ModTime : Time;
  IsDir : bool
}.
End os.

Inductive result (A : Type) :=
| Ok (a : A)
| Failed (e : error).
Arguments Ok {A} a.
Arguments Failed {A} e.

Module http.
Definition StatusOK := 200.
Definition StatusTemporaryRedirect := 307.
Definition StatusBadRequest := 400.
Definition StatusForbidden := 403.
Definition StatusNotFound := 404.
Definition StatusGone := 410.
Definition StatusInternalServerError := 500.
Definition StatusNotImplemented := 501.

Definition MethodGet := "GET".
Definition MethodHead := "HEAD".
Definition MethodOptions := "OPTIONS".

(** An open [http.File]: what [Stat] and [Readdir(-1)] return. [Readdir]
    may give entries and an error at once. *)
Record File := {
  Stat : result os.FileInfo;
  Readdir : list os.FileInfo * option error
}.

(** [http.FileSystem]: [Open] by name. *)
Definition FileSystem := string -> result File.

(** The request fields the handler reads: [r.Method], [r.URL.Path],
    [r.Header] and the query parameters of [r.URL]. *)
Record Request := {
  Method : string;
  URLPath : string;
  Header : gmap string (list string);
  Query : gmap string string
}.

(** What has been done to an [http.ResponseWriter]: the headers set, the
    body bytes written, and the redirect sent through it, if any (its
    location and status). *)
Record ResponseWriter := {
  wHeader : gmap string string;
  wBody : string;
  wRedirect : option (string * Z)
}.

Definition freshWriter : ResponseWriter :=
  {| wHeader := ∅; wBody := ""; wRedirect := None |}.
End http.

(** ** Go's [int] *)

(** [int] is a 64-bit two's complement integer; [wrapInt] brings the result
    of an arithmetic operation back into its range. *)
Definition maxInt : Z := 2 ^ 63 - 1.
Definition minInt : Z := - 2 ^ 63.
Definition wrapInt (z : Z) : Z := (z + 2 ^ 63) mod 2 ^ 64 - 2 ^ 63.

(** ** The data model of [filemanager.go] *)

(** A value of type [interface{}], opaque to the handler. *)
Inductive iface := NilValue | Opaque (tag : string).

(** [FileInfo] is the info about a particular file or directory. *)
Module FileInfo.
Record t := {
  IsDir : bool;
  Name : string;
  Size : Z;
  URL : string;
  ModTime : os.Time;
  Mode : Z
}.
End FileInfo.

(** [httpserver.Context]; its fields are nil until [ServeListing] sets them. *)
Record Context := {
  ctxRoot : option http.FileSystem;
  ctxReq : option http.Request;
  ctxURL : option string
}.

Definition noContext : Context :=
  {| ctxRoot := None; ctxReq := None; ctxURL := None |}.

(** A [Listing] is the context used to fill out a template. *)
Module Listing.
Record t := {
  Name : string;
  Path : string;
  CanGoUp : bool;
  Items : list FileInfo.t;
  NumDirs : Z;
  NumFiles : Z;
  Sort : string;
  Order : string;
  ItemsLimitedTo : Z;
  User : iface;
  Ctx : Context
}.

Definition setItems (l : t) (items : list FileInfo.t) (limitedTo : Z) : t :=
  {| Name := Name l; Path := Path l; CanGoUp := CanGoUp l; Items := items;
     NumDirs := NumDirs l; NumFiles := NumFiles l; Sort := Sort l;
     Order := Order l; ItemsLimitedTo := limitedTo; User := User l;
     Ctx := Ctx l |}.

Definition setContext (l : t) (c : Context) (user : iface) : t :=
  {| Name := Name l; Path := Path l; CanGoUp := CanGoUp l; Items := Items l;
     NumDirs := NumDirs l; NumFiles := NumFiles l; Sort := Sort l;
     Order := Order l; ItemsLimitedTo := ItemsLimitedTo l; User := user;
     Ctx := c |}.

Definition setSortOrder (l : t) (sort order : string) : t :=
  {| Name := Name l; Path := Path l; CanGoUp := CanGoUp l; Items := Items l;
     NumDirs := NumDirs l; NumFiles := NumFiles l; Sort := sort;
     Order := order; ItemsLimitedTo := ItemsLimitedTo l; User := User l;
     Ctx := Ctx l |}.
End Listing.

(** [text/template]'s [Execute] on a listing: the bytes written to the buffer
    and the error, if any. *)
Definition Template := Listing.t -> string * option error.

(** [Config] is a configuration for browsing in a particular path. *)
Record Config := {
  PathScope : string;
  Root : http.FileSystem;
  Variables : iface;
  Template_ : Template
}.

(** [FileManager]; its [Next] handler is not run by the model: handing the
    request over is an outcome of its own (see [Outcome]). *)
Record FileManager := {
  Configs : list Config;
  IgnoreIndexes : bool
}.

(** What the handler takes from outside this file: Caddy
    ([staticfiles.IndexPages], [httpserver.Path.Matches]), Go's library
    ([path.Base], [path.Dir], the non-ASCII branch of [strings.ToLower],
    [json.Marshal] on a slice of [FileInfo], and [http.Redirect], which
    normalises its target and writes the location, the status and a short
    body as [net/http] sees fit), and [Listing.applySort], which the package
    defines in another file. *)
Class Env := {
  IndexPages : list string;
  Matches : string -> string -> bool;
  pathBase : string -> string;
  pathDir : string -> string;
  unicodeToLower : string -> string;
  jsonMarshal : list FileInfo.t -> result string;
  applySort : Listing.t -> Listing.t;
  httpRedirect :
    http.ResponseWriter -> http.Request -> string -> Z -> http.ResponseWriter
}.

(** [for i, x := range l { acc = body i x acc }], from index [i]. *)
Fixpoint rangeFrom {A St : Type} (body : nat -> A -> St -> St)
    (i : nat) (l : list A) (acc : St) : St :=
  match l with
  | [] => acc
  | x :: l' => rangeFrom body (S i) l' (body i x acc)
  end.

Definition range {A St : Type} (body : nat -> A -> St -> St)
    (l : list A) (acc : St) : St :=
  rangeFrom body 0 l acc.

(** ** [Listing.BreadcrumbMap] *)

Definition BreadcrumbMap (l : Listing.t) : gmap string string :=
  let result : gmap string string := ∅ in
  if (String.length (Listing.Path l) =? 0)%nat then result
  else
    let lpath := Listing.Path l in
    let lpath :=
      match strings.index lpath (String.length lpath - 1) with
      | Some c =>
          if Ascii.eqb c "/"
          then strings.slice_to lpath (String.length lpath - 1)
          else lpath
      | None => lpath
      end in
    let parts := strings.Split lpath "/" in
    range
      (fun i part result =>
         if (i =? 0)%nat && String.eqb part ""
         then <["/" := "/"]> result
         else <[strings.Join (take (i + 1) parts) "/" := part]> result)
      parts result.

(** A listing with a given [Path] and nothing else. *)
Definition listingAt (p : string) : Listing.t :=
  {| Listing.Name := ""; Listing.Path := p; Listing.CanGoUp := false;
     Listing.Items := []; Listing.NumDirs := 0; Listing.NumFiles := 0;
     Listing.Sort := ""; Listing.Order := ""; Listing.ItemsLimitedTo := 0;
     Listing.User := NilValue; Listing.Ctx := noContext |}.

(** ** [directoryListing] *)

(** The variables of [directoryListing]'s loop. *)
Record assembly := {
  fileinfos : list FileInfo.t;
  dirCount : Z;
  fileCount : Z;
  hasIndexFile : bool
}.

(** The inner loop over [staticfiles.IndexPages]: a match sets the flag and
    breaks; without one the flag keeps its value. *)
Fixpoint scanIndexPages (name : string) (pages : list string)
    (hasIndexFile : bool) : bool :=
  match pages with
  | [] => hasIndexFile
  | indexName :: pages' =>
      if String.eqb name indexName then true
      else scanIndexPages name pages' hasIndexFile
  end.

Section Assembly.
Context `{Env}.

(** One turn of [for _, f := range files]. *)
Definition assembleEntry (st : assembly) (f : os.FileInfo) : assembly :=
  let name := os.Name f in
  let hasIndex := scanIndexPages name IndexPages (hasIndexFile st) in
  let name := if os.IsDir f then name +:+ "/" else name in
  let dirs := if os.IsDir f then wrapInt (dirCount st + 1) else dirCount st in
  let files := if os.IsDir f then fileCount st else wrapInt (fileCount st + 1) in
  let u := {| url.Path := "./" +:+ name |} in
  {| fileinfos :=
       fileinfos st ++
       [ {| FileInfo.IsDir := os.IsDir f;
            FileInfo.Name := os.Name f;
            FileInfo.Size := os.Size f;
            FileInfo.URL := url.String_ u;
            FileInfo.ModTime := os.UTC (os.ModTime f);
            FileInfo.Mode := os.Mode f |} ];
     dirCount := dirs;
     fileCount := files;
     hasIndexFile := hasIndex |}.

Definition assemble (files : list os.FileInfo) : assembly :=
  fold_left assembleEntry files
    {| fileinfos := []; dirCount := 0; fileCount := 0; hasIndexFile := false |}.

Definition directoryListing (files : list os.FileInfo) (canGoUp : bool)
    (urlPath : string) : Listing.t * bool :=
  let st := assemble files in
  ({| Listing.Name := pathBase urlPath;
      Listing.Path := urlPath;
      Listing.CanGoUp := canGoUp;
      Listing.Items := fileinfos st;
      Listing.NumDirs := dirCount st;
      Listing.NumFiles := fileCount st;
      Listing.Sort := "";
      Listing.Order := "";
      Listing.ItemsLimitedTo := 0;
      Listing.User := NilValue;
      Listing.Ctx := noContext |},
   hasIndexFile st).

End Assembly.

(** ** The limiting step of [ServeListing] *)

(** [if limit > 0 && limit <= len(listing.Items) { listing.Items =
    listing.Items[:limit]; listing.ItemsLimitedTo = limit }]. *)
Definition applyLimit (listing : Listing.t) (limit : Z) : Listing.t :=
  if (0 <? limit) && (limit <=? Z.of_nat (length (Listing.Items listing)))
  then Listing.setItems listing
         (take (Z.to_nat limit) (Listing.Items listing)) limit
  else listing.

(** ** Effects: the response writer, the preference store, the calls made *)

(** The calls the handler makes to its collaborators, in order. *)
Inductive Call :=
| CallOpen (name : string)
| CallStat
| CallReaddir
| CallClose
| CallMarshal
| CallExecute.

(** The sort preference recorded for one scope. *)
Record Pref := {
  prefSort : option string;
  prefOrder : option string;
  prefLimit : option Z
}.

Record World := {
  writer : http.ResponseWriter;
  prefs : gmap string Pref;
  calls : list Call
}.

Definition M (A : Type) : Type := World -> A * World.

#[global] Instance M_ret : MRet M := fun A a w => (a, w).
#[global] Instance M_bind : MBind M :=
  fun A B k m w => let '(a, w') := m w in k a w'.

Definition call (c : Call) : M unit :=
  fun w => (tt, {| writer := writer w; prefs := prefs w;
                   calls := calls w ++ [c] |}).

Definition onWriter (f : http.ResponseWriter -> http.ResponseWriter) : M unit :=
  fun w => (tt, {| writer := f (writer w); prefs := prefs w;
                   calls := calls w |}).

Definition getPref (scope : string) : M (option Pref) :=
  fun w => (prefs w !! scope, w).

Definition putPref (scope : string) (p : Pref) : M unit :=
  fun w => (tt, {| writer := writer w; prefs := <[scope := p]> (prefs w);
                   calls := calls w |}).

(** [w.Header().Set(key, value)]. *)
Definition setHeader (key value : string) : M unit :=
  onWriter (fun rw =>
    {| http.wHeader := <[key := value]> (http.wHeader rw);
       http.wBody := http.wBody rw;
       http.wRedirect := http.wRedirect rw |}).

(** [buf.WriteTo(w)]. *)
Definition writeBody (buf : string) : M unit :=
  onWriter (fun rw =>
    {| http.wHeader := http.wHeader rw;
       http.wBody := http.wBody rw +:+ buf;
       http.wRedirect := http.wRedirect rw |}).

(** [http.Redirect(w, r, url, code)]: the response writer becomes what the
    library makes of it for this request, target and status. *)
Definition redirect `{Env} (r : http.Request) (target : string) (code : Z)
    : M unit :=
  onWriter (fun rw => httpRedirect rw r target code).

(** How a handler call ends: with [return f.Next.ServeHTTP(w, r)], or with
    a status and an error of its own. *)
Inductive Outcome :=
| Deferred
| Returned (status : Z) (err : option error).

(** ** [handleSortOrder] *)

Definition isDigit (c : ascii) : bool := url.between 48 57 c.

Fixpoint parseDigits (s : string) (acc : Z) : option Z :=
  match s with
  | EmptyString => Some acc
  | String c s' =>
      if isDigit c
      then parseDigits s' (10 * acc + (Z.of_nat (nat_of_ascii c) - 48))
      else None
  end.

(** A decimal integer: digits, with an optional minus sign in front. *)
Definition parseInteger (s : string) : option Z :=
  match s with
  | EmptyString => None
  | String c s' =>
      if Ascii.eqb c "-"
      then match s' with
           | EmptyString => None
           | String _ _ => Z.opp <$> parseDigits s' 0
           end
      else parseDigits s 0
  end.

Definition validSort (v : string) : bool :=
  String.eqb v "name" || String.eqb v "size" || String.eqb v "time".

Definition validOrder (v : string) : bool :=
  String.eqb v "asc" || String.eqb v "desc".

Definition errBadSort : error := mkError ErrOther "unrecognized sort".
Definition errBadOrder : error := mkError ErrOther "unrecognized order".
Definition errBadLimit : error := mkError ErrOther "limit is not a non-negative integer".

Definition supplied (q : gmap string string) (key : string) : bool :=
  match q !! key with Some _ => true | None => false end.

(** Modelled from the spec: the validation of the [sort] and [order]
    parameters inside [handleSortOrder], whose file is missing. A supplied
    value must be a recognized one and is then the one to record; a missing
    value falls back to the recorded preference, else to the default. *)
Definition resolveText (given : option string) (valid : string -> bool)
    (bad : error) (recorded : option string) (fallback : string)
    : result (string * option string) :=
  match given with
  | Some v => if valid v then Ok (v, Some v) else Failed bad
  | None => Ok (default fallback recorded, recorded)
  end.

(** Modelled from the spec: the validation of the [limit] parameter inside
    [handleSortOrder], whose file is missing. A supplied value must parse as
    an integer that is not negative; a missing one falls back to the recorded
    limit, else to 0, which limits nothing. *)
Definition resolveLimit (given : option string) (recorded : option Z)
    : result (Z * option Z) :=
  match given with
  | Some v =>
      match parseInteger v with
      | Some n => if n <? 0 then Failed errBadLimit else Ok (n, Some n)
      | None => Failed errBadLimit
      end
  | None => Ok (default 0 recorded, recorded)
  end.

(** Modelled from the spec: [FileManager.handleSortOrder], which
    [ServeListing] calls and another file of the package defines.
    Section 4.4: the [sort], [order] and [limit] parameters are read from the
    request; an unrecognized [sort] or [order] is a client error, and so is a
    [limit] that is negative or not numeric; a missing parameter falls back
    to the preference recorded for the scope, else to [name], [asc] and no
    limit; parameters that are supplied are recorded for the scope. *)
Definition handleSortOrder (r : http.Request) (scope : string)
    : M (string * string * Z * option error) :=
  old ← getPref scope;
  let q := http.Query r in
  match resolveText (q !! "sort") validSort errBadSort (old ≫= prefSort) "name" with
  | Failed e => mret ("", "", 0, Some e)
  | Ok (sort, keepSort) =>
      match resolveText (q !! "order") validOrder errBadOrder
              (old ≫= prefOrder) "asc" with
      | Failed e => mret ("", "", 0, Some e)
      | Ok (order, keepOrder) =>
          match resolveLimit (q !! "limit") (old ≫= prefLimit) with
          | Failed e => mret ("", "", 0, Some e)
          | Ok (limit, keepLimit) =>
              (if supplied q "sort" || supplied q "order" || supplied q "limit"
               then putPref scope {| prefSort := keepSort;
                                     prefOrder := keepOrder;
                                     prefLimit := keepLimit |}
               else mret tt);;
              mret (sort, order, limit, None)
          end
      end
  end.

(** ** [ServeListing] and [ServeHTTP] *)

Section Handler.
Context `{Env}.

(** [strings.ToLower]: bytes [A]..[Z] lowered when the string is ASCII,
    Unicode lowering otherwise. *)
Definition ToLower (s : string) : string :=
  if strings.isASCII s then strings.lowerASCII s else unicodeToLower s.

(** "Determine if user can browse up another folder". *)
Definition canGoUpFrom (f : FileManager) (urlPath : string) : bool :=
  let curPathDir := pathDir (strings.TrimSuffix urlPath "/") in
  existsb (fun other => strings.HasPrefix curPathDir (PathScope other))
    (Configs f).

(** [loadDirectoryContents]: the listing and the index flag, or the error
    of [Readdir]. *)
Definition loadDirectoryContents (f : FileManager)
    (requestedFilepath : http.File) (urlPath : string)
    : M (result (Listing.t * bool)) :=
  call CallReaddir;;
  let '(files, err) := http.Readdir requestedFilepath in
  match err with
  | Some e => mret (Failed e)
  | None =>
      let canGoUp := canGoUpFrom f urlPath in
      mret (Ok (directoryListing files canGoUp urlPath))
  end.

Definition formatAsJSON (listing : Listing.t) : M (string * option error) :=
  call CallMarshal;;
  match jsonMarshal (Listing.Items listing) with
  | Failed e => mret ("", Some e)
  | Ok marsh => mret (marsh, None)
  end.

Definition formatAsHTML (listing : Listing.t) (bc : Config)
    : M (string * option error) :=
  call CallExecute;;
  mret (Template_ bc listing).

(** The joined and lowered [Accept] header of the request. *)
Definition acceptHeader (r : http.Request) : string :=
  ToLower (strings.Join (default [] (http.Header r !! "Accept")) ",").

Definition wantsJSON (r : http.Request) : bool :=
  strings.Contains (acceptHeader r) "application/json".

(** The end of [ServeListing]: content negotiation and the write. *)
Definition present (r : http.Request) (listing : Listing.t) (bc : Config)
    : M Outcome :=
  if wantsJSON r then
    '(buf, err) ← formatAsJSON listing;
    match err with
    | Some e => mret (Returned http.StatusInternalServerError (Some e))
    | None =>
        setHeader "Content-Type" "application/json; charset=utf-8";;
        writeBody buf;;
        mret (Returned http.StatusOK None)
    end
  else
    '(buf, err) ← formatAsHTML listing bc;
    match err with
    | Some e => mret (Returned http.StatusInternalServerError (Some e))
    | None =>
        setHeader "Content-Type" "text/html; charset=utf-8";;
        writeBody buf;;
        mret (Returned http.StatusOK None)
    end.

(** The listing [ServeListing] presents: context and user variables set,
    sort and order copied in, sorted, then limited. *)
Definition prepared (r : http.Request) (bc : Config) (listing : Listing.t)
    (sort order : string) (limit : Z) : Listing.t :=
  let listing :=
    Listing.setContext listing
      {| ctxRoot := Some (Root bc); ctxReq := Some r;
         ctxURL := Some (http.URLPath r) |}
      (Variables bc) in
  let listing := Listing.setSortOrder listing sort order in
  let listing := applySort listing in
  applyLimit listing limit.

Definition ServeListing (f : FileManager) (r : http.Request)
    (requestedFilepath : http.File) (bc : Config) : M Outcome :=
  loaded ← loadDirectoryContents f requestedFilepath (http.URLPath r);
  match loaded with
  | Failed e =>
      if os.IsPermission e then mret (Returned http.StatusForbidden (Some e))
      else if os.IsExist e then mret (Returned http.StatusGone (Some e))
      else mret (Returned http.StatusInternalServerError (Some e))
  | Ok (listing, containsIndex) =>
      if containsIndex && negb (IgnoreIndexes f) then mret Deferred
      else
        '(sort, order, limit, err) ← handleSortOrder r (PathScope bc);
        match err with
        | Some e => mret (Returned http.StatusBadRequest (Some e))
        | None => present r (prepared r bc listing sort order limit) bc
        end
  end.

(** The first configuration whose scope the path matches. *)
Fixpoint findConfig (configs : list Config) (urlPath : string)
    : option Config :=
  match configs with
  | [] => None
  | c :: configs' =>
      if Matches urlPath (PathScope c) then Some c
      else findConfig configs' urlPath
  end.

(** What follows [Open] and [defer requestedFilepath.Close()]. *)
Definition serveOpened (f : FileManager) (r : http.Request)
    (requestedFilepath : http.File) (bc : Config) : M Outcome :=
  call CallStat;;
  match http.Stat requestedFilepath with
  | Failed e =>
      if os.IsPermission e then mret (Returned http.StatusForbidden (Some e))
      else if os.IsExist e then mret (Returned http.StatusGone (Some e))
      else mret Deferred
  | Ok info =>
      if negb (os.IsDir info) then mret Deferred
      else if String.eqb (http.Method r) http.MethodGet
              || String.eqb (http.Method r) http.MethodHead
      then
        if negb (strings.HasSuffix (http.URLPath r) "/") then
          redirect r (http.URLPath r +:+ "/") http.StatusTemporaryRedirect;;
          mret (Returned 0 None)
        else ServeListing f r requestedFilepath bc
      else if String.eqb (http.Method r) "PROPFIND"
              || String.eqb (http.Method r) http.MethodOptions
      then mret (Returned http.StatusNotImplemented None)
      else mret Deferred
  end.

Definition ServeHTTP (f : FileManager) (r : http.Request) : M Outcome :=
  match findConfig (Configs f) (http.URLPath r) with
  | None => mret Deferred
  | Some bc =>
      call (CallOpen (http.URLPath r));;
      match Root bc (http.URLPath r) with
      | Failed e =>
          if os.IsPermission e then mret (Returned http.StatusForbidden (Some e))
          else if os.IsExist e then mret (Returned http.StatusNotFound (Some e))
          else mret Deferred
      | Ok requestedFilepath =>
          out ← serveOpened f r requestedFilepath bc;
          call CallClose;;
          mret out
      end
  end.

End Handler.

(** ** [serveAssets] *)


Section Assets.
Context `{AssetsEnv}.



End Assets.

(** ** Concrete inputs for the examples *)
Module Sample.

(** Caddy's default index pages; scopes match by prefix; a marshaller and
    a sort that keep to the item names. *)
(** [http.Redirect] as it acts on a target that is a clean absolute path of
    unreserved bytes and has nothing to normalise or escape: the location is
    the target; a GET or HEAD response without a content type gets the HTML
    one; the status is written; a GET response gets the short note. *)
Definition redirectNote (target : string) (code : Z) : string :=
  "<a href=" +:+ String "034" (target +:+ String "034" ">")
  +:+ (if code =? 307 then "Temporary Redirect" else "")
  +:+ "</a>." +:+ String "010" (String "010" "").

Definition redirectClean (rw : http.ResponseWriter) (r : http.Request)
    (target : string) (code : Z) : http.ResponseWriter :=
  let hadCT :=
    match http.wHeader rw !! "Content-Type" with
    | Some _ => true
    | None => false
    end in
  let isGet := String.eqb (http.Method r) "GET" in
  let isHead := String.eqb (http.Method r) "HEAD" in
  let hdr := <["Location" := target]> (http.wHeader rw) in
  {| http.wHeader :=
       if negb hadCT && (isGet || isHead)
       then <["Content-Type" := "text/html; charset=utf-8"]> hdr else hdr;
     http.wBody :=
       if negb hadCT && isGet
       then http.wBody rw +:+ redirectNote target code else http.wBody rw;
     http.wRedirect := Some (target, code) |}.

Definition env : Env :=
  {| IndexPages := ["index.html"; "index.htm"; "index.txt";
                    "default.html"; "default.htm"; "default.txt"];
     Matches := fun p base => strings.HasPrefix p base;
     pathBase := fun p => p;
     pathDir := fun p => p;
     unicodeToLower := fun s => s;
     jsonMarshal := fun items =>
       Ok ("[" +:+ strings.Join (map FileInfo.Name items) "," +:+ "]");
     applySort := fun l => l;
     httpRedirect := redirectClean |}.

Definition epoch : os.Time := {| os.instant := 0; os.location := "Local" |}.

Definition file (name : string) (size : Z) : os.FileInfo :=
  {| os.Name := name; os.Size := size; os.Mode := 420;
     os.ModTime := epoch; os.IsDir := false |}.

Definition dir (name : string) : os.FileInfo :=
  {| os.Name := name; os.Size := 4096; os.Mode := 2147484141;
     os.ModTime := epoch; os.IsDir := true |}.

Definition entries : list os.FileInfo :=
  [file "a.txt" 10; dir "B"; file "c d.txt" 5; dir "e"; file "f:g" 1].

Definition listing : Listing.t :=
  (directoryListing (H := env) entries false "/srv/").1.

Definition awkward : list os.FileInfo :=
  [dir "my docs"; file "50% off?.txt" 7].

Definition errDenied : error := mkError ErrPermission "permission denied".
Definition errClash : error := mkError ErrExist "file exists".
Definition errMissing : error := mkError ErrNotExist "no such file".

Definition srv : http.File :=
  {| http.Stat := Ok (dir "srv"); http.Readdir := (entries, None) |}.

Definition site : http.File :=
  {| http.Stat := Ok (dir "site");
     http.Readdir := ([file "index.html" 120; file "logo.png" 900], None) |}.

Definition errIO : error := mkError ErrOther "input/output error".

Definition broken : http.File :=
  {| http.Stat := Ok (dir "broken"); http.Readdir := ([], Some errIO) |}.

Definition fs : http.FileSystem :=
  fun name =>
    if String.eqb name "/srv/" || String.eqb name "/srv" then Ok srv
    else if String.eqb name "/site/" then Ok site
    else if String.eqb name "/broken/" then Ok broken
    else if String.eqb name "/secret/" then Failed errDenied
    else if String.eqb name "/clash/" then Failed errClash
    else Failed errMissing.

Definition page (l : Listing.t) : string * option error :=
  ("<h1>" +:+ Listing.Path l +:+ "</h1>", None).

Definition brokenPage (l : Listing.t) : string * option error :=
  ("<h1>", Some (mkError ErrOther "template: no such field")).

Definition config : Config :=
  {| PathScope := "/"; Root := fs; Variables := NilValue; Template_ := page |}.

Definition brokenConfig : Config :=
  {| PathScope := "/"; Root := fs; Variables := NilValue;
     Template_ := brokenPage |}.

Definition fm : FileManager :=
  {| Configs := [config]; IgnoreIndexes := false |}.

Definition get (path : string) (accept : list string)
    (query : list (string * string)) : http.Request :=
  {| http.Method := "GET"; http.URLPath := path;
     http.Header := {["Accept" := accept]};
     http.Query := list_to_map query |}.

Definition world : World :=
  {| writer := http.freshWriter; prefs := ∅; calls := [] |}.

Definition jsonRequest : http.Request :=
  get "/srv/" ["text/html"; "Application/JSON"] [("limit", "2")].

Definition htmlRequest : http.Request := get "/srv/" ["text/html"] [].

Definition plain : http.File :=
  {| http.Stat := Ok (file "notes.txt" 12); http.Readdir := ([], None) |}.

Definition vanished : http.File :=
  {| http.Stat := Failed errClash; http.Readdir := ([], None) |}.

Definition locked : http.File :=
  {| http.Stat := Ok (dir "locked");
     http.Readdir := ([file "half" 1], Some errDenied) |}.

Definition fsMore : http.FileSystem :=
  fun name =>
    if String.eqb name "/notes.txt" then Ok plain
    else if String.eqb name "/vanished/" then Ok vanished
    else if String.eqb name "/locked/" then Ok locked
    else fs name.

Definition srvConfig : Config :=
  {| PathScope := "/srv"; Root := fsMore; Variables := Opaque "srv";
     Template_ := page |}.

Definition rootConfig : Config :=
  {| PathScope := "/"; Root := fsMore; Variables := NilValue;
     Template_ := page |}.

Definition fmMore : FileManager :=
  {| Configs := [srvConfig; rootConfig]; IgnoreIndexes := true |}.

Definition request (method path : string) : http.Request :=
  {| http.Method := method; http.URLPath := path;
     http.Header := ∅; http.Query := ∅ |}.


End Sample.

(** ** Notions the properties are stated with *)

Definition countDirs (files : list os.FileInfo) : nat :=
  length (List.filter os.IsDir files).

Definition countFiles (files : list os.FileInfo) : nat :=
  length (List.filter (fun f => negb (os.IsDir f)) files).

(** The percent-encoded relative URL of a raw entry: [./] and the name, with
    [/] after the name of a directory. *)
Definition encodedURL (f : os.FileInfo) : string :=
  if os.IsDir f then url.escape ("./" +:+ os.Name f +:+ "/")
  else url.escape ("./" +:+ os.Name f).

(** The [FileInfo] that one turn of the loop appends. *)
Definition itemOf (f : os.FileInfo) : FileInfo.t :=
  {| FileInfo.IsDir := os.IsDir f;
     FileInfo.Name := os.Name f;
     FileInfo.Size := os.Size f;
     FileInfo.URL := encodedURL f;
     FileInfo.ModTime := os.UTC (os.ModTime f);
     FileInfo.Mode := os.Mode f |}.

(** The breadcrumb map as the specification words it. *)
Module BreadcrumbSpec.

(** Strip one trailing separator, if there is one. *)
Fixpoint stripTrailingSep (s : string) : string :=
  match s with
  | EmptyString => EmptyString
  | String c s' =>
      match s' with
      | EmptyString => if Ascii.eqb c "/" then EmptyString else s
      | String _ _ => String c (stripTrailingSep s')
      end
  end.

(** The entries of the segments after a cumulative prefix: each segment
    extends the prefix by a separator and its own text, and the extended
    prefix is mapped to the segment. *)
Fixpoint entriesAfter (prefix : string) (segments : list string)
    : list (string * string) :=
  match segments with
  | [] => []
  | seg :: segments' =>
      let key := prefix +:+ "/" +:+ seg in
      (key, seg) :: entriesAfter key segments'
  end.

(** The entries in order: the root entry for an empty leading segment,
    else the leading segment mapped to itself; then the later segments. *)
Definition entries (path : string) : list (string * string) :=
  match strings.Split (stripTrailingSep path) "/" with
  | [] => []
  | seg0 :: segments =>
      (if String.eqb seg0 "" then ("/", "/") else (seg0, seg0))
      :: entriesAfter seg0 segments
  end.

Definition emit (m : gmap string string) (kv : string * string)
    : gmap string string :=
  <[kv.1 := kv.2]> m.

(** The empty path has no entries; any other path has those above. *)
Definition breadcrumbs (path : string) : gmap string string :=
  if String.eqb path "" then ∅ else fold_left emit (entries path) ∅.

End BreadcrumbSpec.

Definition logged (w : World) (cs : list Call) : World :=
  {| writer := writer w; prefs := prefs w; calls := calls w ++ cs |}.

(** The world after [http.Redirect(w, r, target, code)]. *)
Definition redirected `{Env} (w : World) (r : http.Request) (target : string)
    (code : Z) : World :=
  {| writer := httpRedirect (writer w) r target code;
     prefs := prefs w;
     calls := calls w |}.

Ltac run_handler :=
  unfold mbind, M_bind, mret, M_ret, call, onWriter, logged, redirected;
  cbn beta iota.

(** A query with a parameter the resolver must reject. *)
Definition badSort (q : gmap string string) : Prop :=
  exists v, q !! "sort" = Some v /\ v ∉ ["name"; "size"; "time"].

Definition badOrder (q : gmap string string) : Prop :=
  exists v, q !! "order" = Some v /\ v ∉ ["asc"; "desc"].

Definition badLimit (q : gmap string string) : Prop :=
  exists v, q !! "limit" = Some v /\
    (parseInteger v = None \/ exists n, parseInteger v = Some n /\ n < 0).

Definition wrote (w : World) (contentType body : string) : World :=
  {| writer :=
       {| http.wHeader := <["Content-Type" := contentType]> (http.wHeader (writer w));
          http.wBody := http.wBody (writer w) +:+ body;
          http.wRedirect := http.wRedirect (writer w) |};
     prefs := prefs w;
     calls := calls w |}.

(** The two ways [present] ends, from a world [w]: the body written with
    its content type after one marshal or execute call, or status 500 after
    that call with nothing written. *)
Inductive Presented (w : World) : Outcome -> World -> Prop :=
| PresentedJSON (body : string) :
    Presented w (Returned 200 None)
      (wrote (logged w [CallMarshal]) "application/json; charset=utf-8" body)
| PresentedHTML (body : string) :
    Presented w (Returned 200 None)
      (wrote (logged w [CallExecute]) "text/html; charset=utf-8" body)
| PresentedFailure (c : Call) (e : error) :
    c = CallMarshal \/ c = CallExecute ->
    Presented w (Returned 500 (Some e)) (logged w [c]).

(** The ways [ServeListing] ends, from a world [w]. *)
Inductive Listed (f : FileManager) (r : http.Request) (bc : Config)
    (w : World) : Outcome -> World -> Prop :=
| ListedReadFailure (status : Z) (e : error) :
    status = 403 \/ status = 410 \/ status = 500 ->
    Listed f r bc w (Returned status (Some e)) (logged w [CallReaddir])
| ListedIndex :
    IgnoreIndexes f = false ->
    Listed f r bc w Deferred (logged w [CallReaddir])
| ListedBadQuery (sort order : string) (limit : Z) (e : error) (w1 : World) :
    handleSortOrder r (PathScope bc) (logged w [CallReaddir])
      = (sort, order, limit, Some e, w1) ->
    Listed f r bc w (Returned 400 (Some e)) w1
| ListedPresented (sort order : string) (limit : Z) (w1 : World)
    (out : Outcome) (w' : World) :
    handleSortOrder r (PathScope bc) (logged w [CallReaddir])
      = (sort, order, limit, None, w1) ->
    Presented w1 out w' ->
    Listed f r bc w out w'.

(** The ways [ServeHTTP] ends, from a world [w]. *)
Inductive Routed `{Env} (f : FileManager) (r : http.Request) (w : World)
    : Outcome -> World -> Prop :=
| RoutedUnmatched :
    Routed f r w Deferred w
| RoutedOpenFailure (out : Outcome) (e : error) :
    out = Returned 403 (Some e) \/ out = Returned 404 (Some e)
      \/ out = Deferred ->
    Routed f r w out (logged w [CallOpen (http.URLPath r)])
| RoutedUnlisted (out : Outcome) :
    (exists e, out = Returned 403 (Some e)) \/
    (exists e, out = Returned 410 (Some e)) \/
    out = Returned 501 None \/ out = Deferred ->
    Routed f r w out
      (logged w [CallOpen (http.URLPath r); CallStat; CallClose])
| RoutedRedirect :
    strings.HasSuffix (http.URLPath r) "/" = false ->
    Routed f r w (Returned 0 None)
      (logged (redirected w r (http.URLPath r +:+ "/") 307)
         [CallOpen (http.URLPath r); CallStat; CallClose])
| RoutedListed (bc : Config) (out : Outcome) (w' : World) :
    http.Method r = "GET" \/ http.Method r = "HEAD" ->
    strings.HasSuffix (http.URLPath r) "/" = true ->
    Listed f r bc (logged w [CallOpen (http.URLPath r); CallStat]) out w' ->
    Routed f r w out (logged w' [CallClose]).

(** The directories and the other items among listed items. *)
Definition dirsAmong (items : list FileInfo.t) : nat :=
  length (List.filter FileInfo.IsDir items).

Definition filesAmong (items : list FileInfo.t) : nat :=
  length (List.filter (fun fi => negb (FileInfo.IsDir fi)) items).

(** The value of an upper-case hexadecimal digit. *)
Definition unhex (c : ascii) : nat :=
  let n := nat_of_ascii c in
  if ((48 <=? n) && (n <=? 57))%nat then n - 48
  else if ((65 <=? n) && (n <=? 70))%nat then n - 55
  else 0.

(** A cumulative prefix extended by further segments, each after a
    separator. *)
Definition extend (prefix : string) (segments : list string) : string :=
  fold_left (fun acc seg => acc +:+ "/" +:+ seg) segments prefix.

(** Percent-encoding of a URL path, stated on its own: a byte is kept when
    it is a letter, a digit, one of the marks [-._~], or one of the reserved
    bytes a path may hold ([$&+,/:;=@]); any other byte becomes [%] and the
    two upper-case hexadecimal digits of its value (RFC 3986, 2.1). Decoding
    turns every such triplet back into its byte and refuses a [%] that is
    not followed by two hexadecimal digits. *)
Module PercentEncoding.

Definition kept : string :=
  "ABCDEFGHIJKLMNOPQRSTUVWXYZabcdefghijklmnopqrstuvwxyz0123456789-._~$&+,/:;=@".

Definition isKept (c : ascii) : bool :=
  existsb (Ascii.eqb c) (list_ascii_of_string kept).

Definition hexOf (n : nat) : ascii :=
  if (n <? 10)%nat then ascii_of_nat (48 + n)%nat else ascii_of_nat (55 + n)%nat.

Definition triplet (c : ascii) : string :=
  String "%" (String (hexOf (nat_of_ascii c / 16))
                (String (hexOf (nat_of_ascii c mod 16)) EmptyString)).

Fixpoint encode (s : string) : string :=
  match s with
  | EmptyString => EmptyString
  | String c s' =>
      (if isKept c then String c EmptyString else triplet c) +:+ encode s'
  end.

Definition hexValue (c : ascii) : option nat :=
  let n := nat_of_ascii c in
  if ((48 <=? n) && (n <=? 57))%nat then Some (n - 48)%nat
  else if ((65 <=? n) && (n <=? 70))%nat then Some (n - 55)%nat
  else if ((97 <=? n) && (n <=? 102))%nat then Some (n - 87)%nat
  else None.

Fixpoint decode (s : string) : option string :=
  match s with
  | EmptyString => Some EmptyString
  | String c rest =>
      if Ascii.eqb c "%" then
        match rest with
        | String hi (String lo rest') =>
            match hexValue hi, hexValue lo with
            | Some h, Some l =>
                String (ascii_of_nat (16 * h + l)%nat) <$> decode rest'
            | _, _ => None
            end
        | _ => None
        end
      else String c <$> decode rest
  end.

End PercentEncoding.

(** ** Counts *)

Lemma wrapInt_small (z : Z) : minInt <= z <= maxInt -> wrapInt z = z.
Proof.
  unfold wrapInt, minInt, maxInt. intros Hz.
  rewrite Z.mod_small; lia.
Qed.


Lemma count_split (files : list os.FileInfo) :
  (countDirs files + countFiles files = length files)%nat.
Proof.
  unfold countDirs, countFiles.
  induction files as [|f files IH]; simpl; [reflexivity|].
  destruct (os.IsDir f); simpl; lia.
Qed.

Lemma count_snoc (files : list os.FileInfo) (f : os.FileInfo) :
  countDirs (files ++ [f]) = (countDirs files + if os.IsDir f then 1 else 0)%nat /\
  countFiles (files ++ [f]) = (countFiles files + if os.IsDir f then 0 else 1)%nat.
Proof.
  unfold countDirs, countFiles.
  rewrite !List.filter_app, !length_app. simpl.
  destruct (os.IsDir f); simpl; lia.
Qed.

Section AssemblyFacts.
Context `{Env}.

Lemma assemble_snoc (files : list os.FileInfo) (f : os.FileInfo) :
  assemble (files ++ [f]) = assembleEntry (assemble files) f.
Proof. unfold assemble. rewrite fold_left_app. reflexivity. Qed.

Lemma assemble_counts (files : list os.FileInfo) :
  Z.of_nat (length files) <= maxInt ->
  dirCount (assemble files) = Z.of_nat (countDirs files) /\
  fileCount (assemble files) = Z.of_nat (countFiles files).
Proof.
  induction files as [|f files IH] using rev_ind; [intros _; split; reflexivity|].
  rewrite length_app. simpl. intros Hlen.
  destruct IH as [IHd IHf]; [lia|].
  rewrite assemble_snoc.
  pose proof (count_snoc files f) as [Hd Hf].
  pose proof (count_split files) as Hsplit.
  unfold assembleEntry; simpl.
  rewrite Hd, Hf, IHd, IHf.
  destruct (os.IsDir f); split; try lia;
    rewrite wrapInt_small; unfold minInt, maxInt in *; lia.
Qed.

End AssemblyFacts.

Lemma applyLimit_counts (l : Listing.t) (limit : Z) :
  Listing.NumDirs (applyLimit l limit) = Listing.NumDirs l /\
  Listing.NumFiles (applyLimit l limit) = Listing.NumFiles l.
Proof.
  unfold applyLimit.
  destruct ((0 <? limit) && _); split; reflexivity.
Qed.

(** C1. The listing assembled from a sequence of raw entries (a Go slice, so
    no longer than [maxInt]) has [NumDirs] equal to the number of entries that
    are directories and [NumFiles] equal to the number of the others; the two
    add up to the number of entries; and the limiting step changes neither
    count, on any listing and for any limit. *)
Theorem counts_at_assembly_and_after_limit `{Env}
    (files : list os.FileInfo) (canGoUp : bool) (urlPath : string) :
  Z.of_nat (length files) <= maxInt ->
  let l := (directoryListing files canGoUp urlPath).1 in
  Listing.NumDirs l = Z.of_nat (countDirs files) /\
  Listing.NumFiles l = Z.of_nat (countFiles files) /\
  Listing.NumDirs l + Listing.NumFiles l = Z.of_nat (length files) /\
  forall (l' : Listing.t) (limit : Z),
    Listing.NumDirs (applyLimit l' limit) = Listing.NumDirs l' /\
    Listing.NumFiles (applyLimit l' limit) = Listing.NumFiles l'.
Proof.
  intros Hlen l.
  destruct (assemble_counts files Hlen) as [Hd Hf].
  subst l. unfold directoryListing. simpl.
  rewrite Hd, Hf.
  repeat split; try apply applyLimit_counts.
  pose proof (count_split files). lia.
Qed.

Lemma counts_at_assembly_and_after_limit_witness :
  Listing.NumDirs Sample.listing = 2 /\
  Listing.NumFiles Sample.listing = 3 /\
  Listing.NumDirs (applyLimit Sample.listing 2) = 2 /\
  Listing.NumFiles (applyLimit Sample.listing 2) = 3.
Proof.
  destruct (counts_at_assembly_and_after_limit (H := Sample.env)
              Sample.entries false "/srv/") as (Hd & Hf & _ & Hlim).
  - vm_compute. discriminate.
  - destruct (Hlim Sample.listing 2) as [Hd' Hf'].
    rewrite Hd', Hf'. unfold Sample.listing. rewrite Hd, Hf.
    repeat split; reflexivity.
Defined.

(** ** Limiting *)

(** C2. For a validated limit (not negative): when [0 < limit] and [limit] is
    at most the item count, [Items] becomes its first [limit] items and
    [ItemsLimitedTo] becomes [limit]; when [limit] is 0 or exceeds the item
    count, [Items] and [ItemsLimitedTo] are unchanged, so that an
    [ItemsLimitedTo] of 0 stays 0. *)
Theorem limit_truncates_or_leaves (l : Listing.t) (limit : Z) :
  0 <= limit ->
  (0 < limit <= Z.of_nat (length (Listing.Items l)) ->
     Listing.Items (applyLimit l limit) =
       take (Z.to_nat limit) (Listing.Items l) /\
     Z.of_nat (length (Listing.Items (applyLimit l limit))) = limit /\
     Listing.ItemsLimitedTo (applyLimit l limit) = limit) /\
  (limit = 0 \/ Z.of_nat (length (Listing.Items l)) < limit ->
     Listing.Items (applyLimit l limit) = Listing.Items l /\
     Listing.ItemsLimitedTo (applyLimit l limit) = Listing.ItemsLimitedTo l /\
     (Listing.ItemsLimitedTo l = 0 ->
      Listing.ItemsLimitedTo (applyLimit l limit) = 0)).
Proof.
  intros Hvalid. unfold applyLimit. split.
  - intros [Hpos Hle].
    assert ((0 <? limit) = true) as -> by (apply Z.ltb_lt; lia).
    assert ((limit <=? Z.of_nat (length (Listing.Items l))) = true) as ->
      by (apply Z.leb_le; lia).
    simpl. repeat split.
    rewrite length_take. lia.
  - intros Hcase.
    assert ((0 <? limit) && (limit <=? Z.of_nat (length (Listing.Items l)))
            = false) as ->.
    { destruct Hcase as [-> | Hgt]; [reflexivity|].
      apply andb_false_iff. right. apply Z.leb_gt. lia. }
    repeat split. intros Hzero. exact Hzero.
Qed.

Lemma limit_truncates_or_leaves_witness :
  (length (Listing.Items Sample.listing) = 5%nat /\
   length (Listing.Items (applyLimit Sample.listing 2)) = 2%nat /\
   Listing.ItemsLimitedTo (applyLimit Sample.listing 2) = 2) /\
  (length (Listing.Items (applyLimit Sample.listing 10)) = 5%nat /\
   Listing.ItemsLimitedTo (applyLimit Sample.listing 10) = 0).
Proof.
  split.
  - destruct (limit_truncates_or_leaves Sample.listing 2) as [Hcut _];
      [lia|].
    destruct Hcut as (Hitems & _ & Hlim); [vm_compute; split; congruence|].
    rewrite Hitems, Hlim. repeat split; reflexivity.
  - destruct (limit_truncates_or_leaves Sample.listing 10) as [_ Hkeep];
      [lia|].
    destruct Hkeep as (Hitems & _ & Hzero); [right; vm_compute; reflexivity|].
    rewrite Hitems, Hzero; [split; reflexivity | reflexivity].
Defined.

(** C10. On a listing of [n > 0] items, a limit equal to [n] removes no item
    and still sets [ItemsLimitedTo] to [n], which is not 0. *)
Theorem limit_equal_to_count_marks_untruncated (l : Listing.t) (n : Z) :
  n = Z.of_nat (length (Listing.Items l)) ->
  0 < n ->
  Listing.Items (applyLimit l n) = Listing.Items l /\
  Listing.ItemsLimitedTo (applyLimit l n) = n /\
  Listing.ItemsLimitedTo (applyLimit l n) <> 0.
Proof.
  intros Hn Hpos. unfold applyLimit.
  assert ((0 <? n) = true) as -> by (apply Z.ltb_lt; lia).
  assert ((n <=? Z.of_nat (length (Listing.Items l))) = true) as ->
    by (apply Z.leb_le; lia).
  simpl. repeat split; [|lia].
  apply take_ge. lia.
Qed.

Lemma limit_equal_to_count_marks_untruncated_witness :
  Listing.Items (applyLimit Sample.listing 5) = Listing.Items Sample.listing /\
  Listing.ItemsLimitedTo (applyLimit Sample.listing 5) = 5 /\
  Listing.ItemsLimitedTo (applyLimit Sample.listing 5) <> 0.
Proof.
  apply (limit_equal_to_count_marks_untruncated Sample.listing 5).
  - reflexivity.
  - lia.
Defined.

(** ** Items and their URLs *)


Lemma String_of_dot_slash (name : string) :
  url.String_ {| url.Path := "./" +:+ name |} = url.escape ("./" +:+ name).
Proof.
  unfold url.String_, url.EscapedPath. cbn [url.Path].
  change ("./" +:+ name) with (String "." (String "/" name)).
  change (String.eqb (String "." (String "/" name)) "*") with false.
  change (url.escape (String "." (String "/" name)))
    with (String "." (String "/" (url.escape name))).
  reflexivity.
Qed.

Section ItemFacts.
Context `{Env}.


Lemma assemble_items (files : list os.FileInfo) :
  fileinfos (assemble files) = map itemOf files.
Proof.
  induction files as [|f files IH] using rev_ind; [reflexivity|].
  rewrite assemble_snoc, map_app. unfold assembleEntry at 1. cbn [fileinfos].
  rewrite IH. f_equal. simpl. unfold itemOf, encodedURL.
  rewrite String_of_dot_slash.
  destruct (os.IsDir f); reflexivity.
Qed.

Lemma scanIndexPages_spec (name : string) (pages : list string) (b : bool) :
  scanIndexPages name pages b = true <-> b = true \/ name ∈ pages.
Proof.
  induction pages as [|p pages IH]; simpl.
  - split; [auto|]. intros [?|Hin]; [done|]. by apply not_elem_of_nil in Hin.
  - destruct (String.eqb_spec name p) as [->|Hne].
    + split; [|done]. intros _. right. apply list_elem_of_here.
    + rewrite IH. split; intros [?|Hin]; auto.
      * right. by apply list_elem_of_further.
      * right. apply elem_of_cons in Hin as [?|?]; done.
Qed.

Lemma assemble_hasIndexFile (files : list os.FileInfo) :
  hasIndexFile (assemble files) = true <->
  exists f, f ∈ files /\ os.Name f ∈ IndexPages.
Proof.
  induction files as [|f files IH] using rev_ind.
  - split; [discriminate|]. intros (f & Hin & _).
    by apply not_elem_of_nil in Hin.
  - rewrite assemble_snoc. unfold assembleEntry at 1. cbn [hasIndexFile].
    rewrite scanIndexPages_spec, IH. split.
    + intros [(g & Hg & Hname) | Hname].
      * exists g. split; [|done]. apply elem_of_app. by left.
      * exists f. split; [|done]. apply elem_of_app. right.
        apply list_elem_of_here.
    + intros (g & Hg & Hname). apply elem_of_app in Hg as [Hg|Hg].
      * left. by exists g.
      * apply list_elem_of_singleton in Hg as ->. by right.
Qed.

End ItemFacts.

Lemma escape_byte_as_specified (c : ascii) :
  (if url.shouldEscape c
   then String "%" (String (url.hexDigit (nat_of_ascii c / 16))
                      (String (url.hexDigit (nat_of_ascii c mod 16)) ""))
   else String c "")
  = (if PercentEncoding.isKept c then String c ""
     else PercentEncoding.triplet c).
Proof. destruct c as [[] [] [] [] [] [] [] []]; vm_compute; reflexivity. Qed.

(** [url.escape] in path mode is the percent-encoding of a path. *)
Lemma escape_is_percent_encoding (s : string) :
  url.escape s = PercentEncoding.encode s.
Proof.
  induction s as [|c s IH]; [reflexivity|].
  cbn [url.escape PercentEncoding.encode].
  rewrite <- escape_byte_as_specified, <- IH.
  destruct (url.shouldEscape c); reflexivity.
Qed.

Lemma decode_byte (c : ascii) (rest : string) :
  PercentEncoding.decode
    ((if PercentEncoding.isKept c then String c ""
      else PercentEncoding.triplet c) +:+ rest)
  = String c <$> PercentEncoding.decode rest.
Proof.
  destruct c as [[] [] [] [] [] [] [] []]; reflexivity.
Qed.

Lemma decode_encode (s : string) :
  PercentEncoding.decode (PercentEncoding.encode s) = Some s.
Proof.
  induction s as [|c s IH]; [reflexivity|].
  cbn [PercentEncoding.encode]. rewrite decode_byte, IH. reflexivity.
Qed.

(** C9. The [FileInfo] assembled for a raw entry keeps the entry's name as it
    is, with no [/] added; its [URL] is the percent-encoded form of [./], the
    name and a closing [/] when the entry is a directory, and of [./] and the
    name alone when it is not: every byte that may not stand in a path is
    replaced by its [%XY] triplet, and decoding the URL gives that text
    back. *)
Theorem item_name_and_url `{Env} (files : list os.FileInfo) (canGoUp : bool)
    (urlPath : string) (i : nat) (f : os.FileInfo) :
  files !! i = Some f ->
  exists fi : FileInfo.t,
    Listing.Items (directoryListing files canGoUp urlPath).1 !! i = Some fi /\
    FileInfo.IsDir fi = os.IsDir f /\
    FileInfo.Name fi = os.Name f /\
    FileInfo.URL fi =
      (if os.IsDir f
       then PercentEncoding.encode ("./" +:+ os.Name f +:+ "/")
       else PercentEncoding.encode ("./" +:+ os.Name f)) /\
    PercentEncoding.decode (FileInfo.URL fi) =
      Some (if os.IsDir f then "./" +:+ os.Name f +:+ "/"
            else "./" +:+ os.Name f).
Proof.
  intros Hf. exists (itemOf f).
  unfold directoryListing. cbn [fst Listing.Items].
  rewrite assemble_items, list_lookup_fmap, Hf.
  cbn [itemOf FileInfo.URL FileInfo.IsDir FileInfo.Name]. unfold encodedURL.
  split; [reflexivity|]. split; [reflexivity|]. split; [reflexivity|].
  destruct (os.IsDir f); rewrite escape_is_percent_encoding;
    (split; [reflexivity | apply decode_encode]).
Qed.

Lemma item_name_and_url_witness :
  (exists fi : FileInfo.t,
     Listing.Items
       (directoryListing (H := Sample.env) Sample.awkward false "/srv/").1
       !! 0%nat = Some fi /\
     FileInfo.IsDir fi = true /\
     FileInfo.Name fi = "my docs" /\
     FileInfo.URL fi = "./my%20docs/" /\
     PercentEncoding.decode (FileInfo.URL fi) = Some "./my docs/") /\
  (exists fi : FileInfo.t,
     Listing.Items
       (directoryListing (H := Sample.env) Sample.awkward false "/srv/").1
       !! 1%nat = Some fi /\
     FileInfo.IsDir fi = false /\
     FileInfo.Name fi = "50% off?.txt" /\
     FileInfo.URL fi = "./50%25%20off%3F.txt" /\
     PercentEncoding.decode (FileInfo.URL fi) = Some "./50% off?.txt").
Proof.
  split.
  - destruct (item_name_and_url (H := Sample.env) Sample.awkward false "/srv/"
                0 (Sample.dir "my docs") eq_refl)
      as (fi & Hfi & Hdir & Hname & Hurl & Hback).
    exists fi. split; [exact Hfi|]. split; [exact Hdir|].
    split; [exact Hname|]. split; [exact Hurl | exact Hback].
  - destruct (item_name_and_url (H := Sample.env) Sample.awkward false "/srv/"
                1 (Sample.file "50% off?.txt" 7) eq_refl)
      as (fi & Hfi & Hdir & Hname & Hurl & Hback).
    exists fi. split; [exact Hfi|]. split; [exact Hdir|].
    split; [exact Hname|]. split; [exact Hurl | exact Hback].
Defined.

Example url_of_file_with_space_and_colon :
  map FileInfo.URL (Listing.Items Sample.listing) =
  ["./a.txt"; "./B/"; "./c%20d.txt"; "./e/"; "./f:g"].
Proof. vm_compute. reflexivity. Qed.

(** ** Breadcrumbs *)


Lemma append_assoc (a b c : string) : (a +:+ b) +:+ c = a +:+ (b +:+ c).
Proof.
  induction a as [|x a IH]; [reflexivity|].
  change (String x ((a +:+ b) +:+ c) = String x (a +:+ b +:+ c)).
  f_equal. exact IH.
Qed.

Lemma Join_snoc (pre : list string) (x sep : string) :
  pre <> [] ->
  strings.Join (pre ++ [x]) sep = strings.Join pre sep +:+ sep +:+ x.
Proof.
  induction pre as [|p pre IH]; [done|]. intros _.
  destruct pre as [|q pre]; [reflexivity|].
  change (strings.Join ((p :: q :: pre) ++ [x]) sep)
    with (p +:+ sep +:+ strings.Join ((q :: pre) ++ [x]) sep).
  rewrite IH by done.
  change (strings.Join (p :: q :: pre) sep)
    with (p +:+ sep +:+ strings.Join (q :: pre) sep).
  by rewrite !append_assoc.
Qed.

(** The source's way of dropping the trailing separator, on a path that is
    not empty. *)
Lemma strip_as_specified (c : ascii) (s : string) :
  let lpath := String c s in
  match strings.index lpath (String.length lpath - 1) with
  | Some d =>
      if Ascii.eqb d "/"
      then strings.slice_to lpath (String.length lpath - 1)
      else lpath
  | None => lpath
  end = BreadcrumbSpec.stripTrailingSep lpath.
Proof.
  cbn zeta. revert c. induction s as [|d s IH]; intros c.
  - simpl. destruct (Ascii.eqb c "/"); reflexivity.
  - specialize (IH d).
    change (BreadcrumbSpec.stripTrailingSep (String c (String d s)))
      with (String c (BreadcrumbSpec.stripTrailingSep (String d s))).
    rewrite <- IH. clear IH.
    unfold strings.index, strings.slice_to.
    assert ((String.length (String d s) - 1)%nat = String.length s) as ->
      by (simpl; lia).
    assert ((String.length (String c (String d s)) - 1)%nat
            = S (String.length s)) as -> by (simpl; lia).
    change (String.get (S (String.length s)) (String c (String d s)))
      with (String.get (String.length s) (String d s)).
    change (String.substring 0 (S (String.length s)) (String c (String d s)))
      with (String c (String.substring 0 (String.length s) (String d s))).
    destruct (String.get (String.length s) (String d s)) as [e|];
      [|reflexivity].
    destruct (Ascii.eqb e "/"); reflexivity.
Qed.

(** The source's loop body on the parts after the first. *)
Lemma crumbs_after (parts pre rest : list string) (acc : gmap string string) :
  parts = (pre ++ rest)%list ->
  pre <> [] ->
  rangeFrom
    (fun i part result =>
       if (i =? 0)%nat && String.eqb part ""
       then <["/" := "/"]> result
       else <[strings.Join (take (i + 1) parts) "/" := part]> result)
    (length pre) rest acc
  = fold_left BreadcrumbSpec.emit
      (BreadcrumbSpec.entriesAfter (strings.Join pre "/") rest) acc.
Proof.
  revert pre acc. induction rest as [|seg rest IH]; intros pre acc Hparts Hpre;
    [reflexivity|].
  cbn [rangeFrom BreadcrumbSpec.entriesAfter fold_left].
  assert ((length pre =? 0)%nat = false) as ->.
  { apply Nat.eqb_neq. destruct pre; [done | simpl; lia]. }
  cbn [andb].
  assert (take (length pre + 1) parts = (pre ++ [seg])%list) as ->.
  { rewrite Hparts.
    change (seg :: rest) with ([seg] ++ rest)%list. rewrite app_assoc.
    rewrite take_app_length'; [done|]. rewrite length_app. simpl. lia. }
  rewrite Join_snoc by done.
  specialize (IH (pre ++ [seg])%list (<[strings.Join pre "/" +:+ "/" +:+ seg := seg]> acc)).
  rewrite length_app in IH. simpl in IH.
  replace (S (length pre)) with (length pre + 1)%nat by lia.
  rewrite IH.
  - rewrite Join_snoc by done. reflexivity.
  - rewrite Hparts, <- app_assoc. reflexivity.
  - by destruct pre.
Qed.

(** C3. The map [BreadcrumbMap] returns is the one built as specified: one
    trailing separator stripped at most, the rest split on the separator, the
    root entry [/] to [/] for an empty leading segment, and each cumulative
    prefix of segments [0..i] mapped to segment [i]; the path [/a/b/c/] gives
    exactly [/], [/a], [/a/b], [/a/b/c] mapped to [/], [a], [b], [c]; the
    empty path gives the empty map. *)
Theorem breadcrumb_map_as_specified :
  (forall l : Listing.t,
     BreadcrumbMap l = BreadcrumbSpec.breadcrumbs (Listing.Path l)) /\
  BreadcrumbMap (listingAt "/a/b/c/") =
    <["/" := "/"]> (<["/a" := "a"]> (<["/a/b" := "b"]> {["/a/b/c" := "c"]})) /\
  BreadcrumbMap (listingAt "") = ∅.
Proof.
  split; [|split; vm_compute; reflexivity].
  intros l. unfold BreadcrumbMap, BreadcrumbSpec.breadcrumbs.
  destruct (Listing.Path l) as [|c s]; [reflexivity|].
  change (String.length (String c s) =? 0)%nat with false.
  change (String.eqb (String c s) "") with false.
  cbv iota.
  rewrite (strip_as_specified c s).
  unfold BreadcrumbSpec.entries, range.
  destruct (strings.Split (BreadcrumbSpec.stripTrailingSep (String c s)) "/")
    as [|seg0 rest] eqn:Hsplit; [reflexivity|].
  cbn [rangeFrom fold_left].
  rewrite (crumbs_after (seg0 :: rest) [seg0] rest) by done.
  cbn [Nat.eqb andb strings.Join].
  destruct (String.eqb seg0 ""); reflexivity.
Qed.

(** A relative path has no root entry; the root path has only the root
    entry; after two leading separators the second, empty, segment takes the
    key [/] over. *)
Example breadcrumb_edge_cases :
  BreadcrumbMap (listingAt "a/b") = <["a" := "a"]> {["a/b" := "b"]} /\
  BreadcrumbMap (listingAt "/") = {["/" := "/"]} /\
  BreadcrumbMap (listingAt "//x") = <["/" := ""]> {["//x" := "x"]}.
Proof. repeat split; vm_compute; reflexivity. Qed.

(** ** The router *)


Lemma exist_is_not_permission (e : error) :
  os.IsExist e = true -> os.IsPermission e = false.
Proof. unfold os.IsExist, os.IsPermission. by destruct (errClassOf e). Qed.

(** C5. When the target of an in-scope request fails to open, a permission
    error is answered with 403, an already-exists error with 404, and any
    other error hands the request to the next handler. *)
Theorem open_failure_statuses `{Env} (f : FileManager) (r : http.Request)
    (bc : Config) (e : error) (w : World) :
  findConfig (Configs f) (http.URLPath r) = Some bc ->
  Root bc (http.URLPath r) = Failed e ->
  (os.IsPermission e = true ->
     (ServeHTTP f r w).1 = Returned 403 (Some e)) /\
  (os.IsExist e = true ->
     (ServeHTTP f r w).1 = Returned 404 (Some e)) /\
  (os.IsPermission e = false -> os.IsExist e = false ->
     (ServeHTTP f r w).1 = Deferred).
Proof.
  intros Hscope Hopen. unfold ServeHTTP. rewrite Hscope.
  run_handler. rewrite Hopen.
  repeat split.
  - intros ->. reflexivity.
  - intros Hexist. rewrite (exist_is_not_permission e Hexist), Hexist.
    reflexivity.
  - intros -> ->. reflexivity.
Qed.

Lemma open_failure_statuses_witness :
  (ServeHTTP (H := Sample.env) Sample.fm (Sample.get "/secret/" [] [])
     Sample.world).1 = Returned 403 (Some Sample.errDenied) /\
  (ServeHTTP (H := Sample.env) Sample.fm (Sample.get "/clash/" [] [])
     Sample.world).1 = Returned 404 (Some Sample.errClash) /\
  (ServeHTTP (H := Sample.env) Sample.fm (Sample.get "/nowhere/" [] [])
     Sample.world).1 = Deferred.
Proof.
  split; [|split].
  - apply (open_failure_statuses (H := Sample.env) Sample.fm
             (Sample.get "/secret/" [] []) Sample.config Sample.errDenied
             Sample.world eq_refl eq_refl).
    reflexivity.
  - apply (open_failure_statuses (H := Sample.env) Sample.fm
             (Sample.get "/clash/" [] []) Sample.config Sample.errClash
             Sample.world eq_refl eq_refl).
    reflexivity.
  - apply (open_failure_statuses (H := Sample.env) Sample.fm
             (Sample.get "/nowhere/" [] []) Sample.config Sample.errMissing
             Sample.world eq_refl eq_refl); reflexivity.
Defined.

(** C7. A GET or HEAD request that matches a scope and opens as a directory,
    with a path that does not end in [/], is answered by a redirect: the
    handler calls [http.Redirect] once, for the request, the path with [/]
    appended and status 307, and returns 0 with no error. The response is
    what that call makes of it and nothing more; the only calls to the file
    system are the open, the stat and the close, so the directory is not
    read; nothing is marshalled or rendered and no preference is recorded. *)
Theorem no_trailing_slash_redirects `{Env} (f : FileManager)
    (r : http.Request) (bc : Config) (file : http.File) (info : os.FileInfo)
    (w : World) :
  findConfig (Configs f) (http.URLPath r) = Some bc ->
  Root bc (http.URLPath r) = Ok file ->
  http.Stat file = Ok info ->
  os.IsDir info = true ->
  http.Method r = "GET" \/ http.Method r = "HEAD" ->
  strings.HasSuffix (http.URLPath r) "/" = false ->
  ServeHTTP f r w =
    (Returned 0 None,
     logged (redirected w r (http.URLPath r +:+ "/") 307)
       [CallOpen (http.URLPath r); CallStat; CallClose]).
Proof.
  intros Hscope Hopen Hstat Hdir Hmethod Hslash.
  unfold ServeHTTP. rewrite Hscope. run_handler. rewrite Hopen.
  unfold serveOpened. run_handler. rewrite Hstat, Hdir, Hslash.
  assert (String.eqb (http.Method r) http.MethodGet
          || String.eqb (http.Method r) http.MethodHead = true) as ->.
  { destruct Hmethod as [-> | ->]; reflexivity. }
  cbn. unfold redirect, onWriter. cbn.
  rewrite <- !app_assoc. reflexivity.
Qed.

Lemma no_trailing_slash_redirects_witness :
  ServeHTTP (H := Sample.env) Sample.fm (Sample.get "/srv" [] [])
    Sample.world =
  (Returned 0 None,
   {| writer :=
        {| http.wHeader :=
             <["Content-Type" := "text/html; charset=utf-8"]>
               (<["Location" := "/srv/"]> ∅);
           http.wBody := Sample.redirectNote "/srv/" 307;
           http.wRedirect := Some ("/srv/", 307) |};
      prefs := ∅;
      calls := [CallOpen "/srv"; CallStat; CallClose] |}).
Proof.
  rewrite (no_trailing_slash_redirects (H := Sample.env) Sample.fm
             (Sample.get "/srv" [] []) Sample.config Sample.srv
             (Sample.dir "srv") Sample.world);
    first [reflexivity | left; reflexivity].
Defined.

(** ** Serving a listing *)

Section ListingFacts.
Context `{Env}.

(** [ServeListing] once [Readdir] has given the entries. *)
Lemma ServeListing_loaded (f : FileManager) (r : http.Request)
    (file : http.File) (bc : Config) (files : list os.FileInfo) (w : World) :
  http.Readdir file = (files, None) ->
  ServeListing f r file bc w =
    let dl := directoryListing files (canGoUpFrom f (http.URLPath r))
                (http.URLPath r) in
    if dl.2 && negb (IgnoreIndexes f)
    then (Deferred, logged w [CallReaddir])
    else
      let '(sort, order, limit, err, w1) :=
        handleSortOrder r (PathScope bc) (logged w [CallReaddir]) in
      match err with
      | Some e => (Returned 400 (Some e), w1)
      | None => present r (prepared r bc dl.1 sort order limit) bc w1
      end.
Proof.
  intros Hread. unfold ServeListing, loadDirectoryContents.
  run_handler. rewrite Hread. cbn zeta beta iota.
  destruct (directoryListing files _ _) as [listing containsIndex].
  cbn [fst snd].
  destruct (containsIndex && negb (IgnoreIndexes f)); [reflexivity|].
  destruct (handleSortOrder r (PathScope bc) _) as [[[[sort order] limit] err] w1].
  destruct err; reflexivity.
Qed.

(** An in-scope GET or HEAD request for a directory, with the closing
    separator, is served by [ServeListing] between the stat and the close. *)
Lemma ServeHTTP_listing (f : FileManager) (r : http.Request) (bc : Config)
    (file : http.File) (info : os.FileInfo) (w : World) :
  findConfig (Configs f) (http.URLPath r) = Some bc ->
  Root bc (http.URLPath r) = Ok file ->
  http.Stat file = Ok info ->
  os.IsDir info = true ->
  http.Method r = "GET" \/ http.Method r = "HEAD" ->
  strings.HasSuffix (http.URLPath r) "/" = true ->
  ServeHTTP f r w =
    let '(out, w') :=
      ServeListing f r file bc
        (logged w [CallOpen (http.URLPath r); CallStat]) in
    (out, logged w' [CallClose]).
Proof.
  intros Hscope Hopen Hstat Hdir Hmethod Hslash.
  unfold ServeHTTP. rewrite Hscope. run_handler. rewrite Hopen.
  unfold serveOpened. run_handler. rewrite Hstat, Hdir, Hslash.
  assert (String.eqb (http.Method r) http.MethodGet
          || String.eqb (http.Method r) http.MethodHead = true) as ->.
  { destruct Hmethod as [-> | ->]; reflexivity. }
  cbn. rewrite <- app_assoc. reflexivity.
Qed.

End ListingFacts.

(** C8. The index flag of an assembled directory is true exactly when some
    raw entry has a name among the recognized index pages; and when such an
    entry exists and indexes are not ignored, [ServeListing] hands the request
    to the next handler after reading the directory, writing nothing. *)
Theorem index_file_defers `{Env} (f : FileManager) (r : http.Request)
    (file : http.File) (bc : Config) (files : list os.FileInfo) (w : World) :
  (forall (canGoUp : bool) (urlPath : string),
     (directoryListing files canGoUp urlPath).2 = true <->
     exists e, e ∈ files /\ os.Name e ∈ IndexPages) /\
  (http.Readdir file = (files, None) ->
   (exists e, e ∈ files /\ os.Name e ∈ IndexPages) ->
   IgnoreIndexes f = false ->
   ServeListing f r file bc w = (Deferred, logged w [CallReaddir])).
Proof.
  split.
  - intros canGoUp urlPath. unfold directoryListing. cbn [snd].
    apply assemble_hasIndexFile.
  - intros Hread Hindex Hignore.
    rewrite (ServeListing_loaded f r file bc files w Hread). cbn zeta.
    apply assemble_hasIndexFile in Hindex.
    unfold directoryListing at 1. cbn [snd]. rewrite Hindex, Hignore.
    reflexivity.
Qed.

Lemma index_file_defers_witness :
  ServeListing (H := Sample.env) Sample.fm (Sample.get "/site/" [] [])
    Sample.site Sample.config Sample.world =
  (Deferred,
   {| writer := http.freshWriter; prefs := ∅; calls := [CallReaddir] |}).
Proof.
  apply (index_file_defers (H := Sample.env) Sample.fm
           (Sample.get "/site/" [] []) Sample.site Sample.config
           [Sample.file "index.html" 120; Sample.file "logo.png" 900]
           Sample.world).
  - reflexivity.
  - exists (Sample.file "index.html" 120). split.
    + apply list_elem_of_here.
    + apply list_elem_of_here.
  - reflexivity.
Defined.

(** ** Query validation *)


Lemma validSort_elem (v : string) :
  validSort v = true <-> v ∈ ["name"; "size"; "time"].
Proof.
  unfold validSort. rewrite !orb_true_iff, !String.eqb_eq.
  rewrite !elem_of_cons, elem_of_nil. tauto.
Qed.

Lemma validOrder_elem (v : string) :
  validOrder v = true <-> v ∈ ["asc"; "desc"].
Proof.
  unfold validOrder. rewrite !orb_true_iff, !String.eqb_eq.
  rewrite !elem_of_cons, elem_of_nil. tauto.
Qed.

(** Settles one path through the resolver: the supplied values that passed
    validation contradict the bad parameter, or the bad limit is rejected. *)
Ltac settle_bad_query Hbad Hs Ho Hvs Hvo :=
  let v := fresh "v" in
  let Hv := fresh "Hv" in
  let Hnot := fresh "Hnot" in
  let n := fresh "n" in
  let Hneg := fresh "Hneg" in
  destruct Hbad as [(v & Hv & Hnot) | [(v & Hv & Hnot) | (v & Hv & Hnot)]];
  [ rewrite Hs in Hv;
    first [ discriminate
          | injection Hv as <-; apply validSort_elem in Hvs; contradiction ]
  | rewrite Ho in Hv;
    first [ discriminate
          | injection Hv as <-; apply validOrder_elem in Hvo; contradiction ]
  | rewrite Hv;
    destruct Hnot as [-> | (n & -> & Hneg)]; [eexists; reflexivity|];
    apply Z.ltb_lt in Hneg; rewrite Hneg; eexists; reflexivity ].

Lemma handleSortOrder_rejects (r : http.Request) (scope : string) (w : World) :
  badSort (http.Query r) \/ badOrder (http.Query r) \/ badLimit (http.Query r) ->
  exists e, handleSortOrder r scope w = ("", "", 0, Some e, w).
Proof.
  intros Hbad. unfold handleSortOrder, getPref, resolveText, resolveLimit.
  run_handler.
  destruct (http.Query r !! "sort") as [vs|] eqn:Hs;
    [destruct (validSort vs) eqn:Hvs; [|eexists; reflexivity] | pose proof I as Hvs];
    cbn beta iota;
    (destruct (http.Query r !! "order") as [vo|] eqn:Ho;
     [destruct (validOrder vo) eqn:Hvo; [|eexists; reflexivity] | pose proof I as Hvo]);
    cbn beta iota;
    settle_bad_query Hbad Hs Ho Hvs Hvo.
Qed.

(** C4, as amended. A directory request that reaches the resolver (the
    directory was read, and no index file hands the request to the next
    handler) with a [sort] outside [name], [size], [time], an [order] outside
    [asc], [desc], or a [limit] that is negative or not a decimal integer, is
    answered with status 400 and an error; nothing is written to the response
    and no preference is recorded, so no default takes the place of the bad
    value. *)
Theorem bad_query_is_client_error `{Env} (f : FileManager) (r : http.Request)
    (file : http.File) (bc : Config) (files : list os.FileInfo) (w : World) :
  http.Readdir file = (files, None) ->
  (directoryListing files (canGoUpFrom f (http.URLPath r)) (http.URLPath r)).2
    && negb (IgnoreIndexes f) = false ->
  badSort (http.Query r) \/ badOrder (http.Query r) \/ badLimit (http.Query r) ->
  exists e,
    ServeListing f r file bc w = (Returned 400 (Some e), logged w [CallReaddir]).
Proof.
  intros Hread Hserve Hbad.
  rewrite (ServeListing_loaded f r file bc files w Hread). cbn zeta.
  rewrite Hserve.
  destruct (handleSortOrder_rejects r (PathScope bc) (logged w [CallReaddir]) Hbad)
    as [e ->].
  by exists e.
Qed.

Lemma bad_query_is_client_error_witness :
  (exists e, ServeListing (H := Sample.env) Sample.fm
               (Sample.get "/srv/" [] [("sort", "bogus")])
               Sample.srv Sample.config Sample.world
             = (Returned 400 (Some e), logged Sample.world [CallReaddir])) /\
  (exists e, ServeListing (H := Sample.env) Sample.fm
               (Sample.get "/srv/" [] [("limit", "-1")])
               Sample.srv Sample.config Sample.world
             = (Returned 400 (Some e), logged Sample.world [CallReaddir])).
Proof.
  split.
  - apply (bad_query_is_client_error (H := Sample.env) Sample.fm
             (Sample.get "/srv/" [] [("sort", "bogus")])
             Sample.srv Sample.config Sample.entries Sample.world).
    + reflexivity.
    + reflexivity.
    + left. exists "bogus". split; [reflexivity|].
      rewrite <- validSort_elem. discriminate.
  - apply (bad_query_is_client_error (H := Sample.env) Sample.fm
             (Sample.get "/srv/" [] [("limit", "-1")])
             Sample.srv Sample.config Sample.entries Sample.world).
    + reflexivity.
    + reflexivity.
    + right. right. exists "-1". split; [reflexivity|].
      right. exists (-1). split; [reflexivity | lia].
Defined.

(** C4, as stated, fails: the index-file gate and a failed read of the
    directory come before the resolver. A request with [sort=bogus] for a
    directory holding [index.html] is handed to the next handler, and one for
    a directory that cannot be read is answered with 500. *)
Lemma bad_query_before_the_resolver :
  badSort (http.Query (Sample.get "/site/" [] [("sort", "bogus")])) /\
  (ServeHTTP (H := Sample.env) Sample.fm
     (Sample.get "/site/" [] [("sort", "bogus")]) Sample.world).1 = Deferred /\
  (ServeListing (H := Sample.env) Sample.fm
     (Sample.get "/site/" [] [("sort", "bogus")]) Sample.site Sample.config
     Sample.world).1 = Deferred /\
  (ServeHTTP (H := Sample.env) Sample.fm
     (Sample.get "/broken/" [] [("sort", "bogus")]) Sample.world).1
    = Returned 500 (Some Sample.errIO).
Proof.
  split; [|split; [|split]]; try (vm_compute; reflexivity).
  exists "bogus". split; [reflexivity|].
  rewrite <- validSort_elem. discriminate.
Qed.

Example bad_queries_rejected :
  map (fun q => (ServeListing (H := Sample.env) Sample.fm
                   (Sample.get "/srv/" [] q) Sample.srv Sample.config
                   Sample.world).1)
      [[("sort", "bogus")]; [("order", "up")]; [("limit", "-1")];
       [("limit", "ten")]; [("sort", "size"); ("limit", "")]]
  = [Returned 400 (Some errBadSort); Returned 400 (Some errBadOrder);
     Returned 400 (Some errBadLimit); Returned 400 (Some errBadLimit);
     Returned 400 (Some errBadLimit)].
Proof. vm_compute. reflexivity. Qed.

(** ** Content negotiation *)

Lemma HasPrefix_spec (s p : string) :
  strings.HasPrefix s p = true <-> exists post, s = p +:+ post.
Proof.
  revert s. induction p as [|c p IH]; intros s.
  - split; [intros _; by exists s | intros _; by destruct s].
  - destruct s as [|d s].
    + split; [discriminate | intros [post Hpost]; discriminate].
    + cbn [strings.HasPrefix]. rewrite andb_true_iff, Ascii.eqb_eq, IH. split.
      * intros [-> [post ->]]. by exists post.
      * intros [post Hpost]. injection Hpost as -> ->. split; [done | by exists post].
Qed.






Section PresentFacts.
Context `{Env}.

Lemma present_json (r : http.Request) (listing : Listing.t) (bc : Config)
    (w : World) :
  wantsJSON r = true ->
  present r listing bc w =
    match jsonMarshal (Listing.Items listing) with
    | Ok body =>
        (Returned 200 None,
         wrote (logged w [CallMarshal]) "application/json; charset=utf-8" body)
    | Failed e => (Returned 500 (Some e), logged w [CallMarshal])
    end.
Proof.
  intros Hjson. unfold present, formatAsJSON. rewrite Hjson.
  run_handler. destruct (jsonMarshal (Listing.Items listing)); reflexivity.
Qed.

Lemma present_html (r : http.Request) (listing : Listing.t) (bc : Config)
    (w : World) :
  wantsJSON r = false ->
  present r listing bc w =
    match Template_ bc listing with
    | (out, None) =>
        (Returned 200 None,
         wrote (logged w [CallExecute]) "text/html; charset=utf-8" out)
    | (_, Some e) => (Returned 500 (Some e), logged w [CallExecute])
    end.
Proof.
  intros Hjson. unfold present, formatAsHTML. rewrite Hjson.
  run_handler. destruct (Template_ bc listing) as [out [e|]]; reflexivity.
Qed.

End PresentFacts.



(** ** More on the router *)

Section RouterFacts.
Context `{Env}.

Lemma findConfig_none (configs : list Config) (p : string) :
  findConfig configs p = None <->
  forall c, c ∈ configs -> Matches p (PathScope c) = false.
Proof.
  induction configs as [|c configs IH]; simpl.
  - split; [|done]. intros _ c Hc. by apply not_elem_of_nil in Hc.
  - destruct (Matches p (PathScope c)) eqn:Hm.
    + split; [done|]. intros Hall.
      rewrite (Hall c) in Hm; [done | apply list_elem_of_here].
    + rewrite IH. split.
      * intros Hall d Hd. apply elem_of_cons in Hd as [-> | Hd]; auto.
      * intros Hall d Hd. apply Hall. by apply list_elem_of_further.
Qed.

Lemma findConfig_some (configs : list Config) (p : string) (bc : Config) :
  findConfig configs p = Some bc <->
  exists before after,
    configs = (before ++ bc :: after)%list /\
    Matches p (PathScope bc) = true /\
    forall c, c ∈ before -> Matches p (PathScope c) = false.
Proof.
  induction configs as [|c configs IH]; simpl.
  - split; [done|]. intros (before & after & Hcs & _).
    by destruct before.
  - destruct (Matches p (PathScope c)) eqn:Hm.
    + split.
      * intros [= <-]. exists [], configs. repeat split; [done|].
        intros d Hd. by apply not_elem_of_nil in Hd.
      * intros (before & after & Hcs & Hbc & Hbefore).
        destruct before as [|d before]; simpl in Hcs.
        -- by injection Hcs as ->.
        -- injection Hcs as -> _.
           rewrite (Hbefore d) in Hm; [done | apply list_elem_of_here].
    + rewrite IH. split.
      * intros (before & after & -> & Hbc & Hbefore).
        exists (c :: before), after. repeat split; [done|].
        intros d Hd. apply elem_of_cons in Hd as [-> | Hd]; auto.
      * intros (before & after & Hcs & Hbc & Hbefore).
        destruct before as [|d before]; simpl in Hcs.
        -- injection Hcs as -> _. congruence.
        -- injection Hcs as -> ->. exists before, after. repeat split; [done|].
           intros e He. apply Hbefore. by apply list_elem_of_further.
Qed.

(** What [serveOpened] does once [Stat] has shown a directory. *)
Lemma serveOpened_directory (f : FileManager) (r : http.Request)
    (file : http.File) (bc : Config) (info : os.FileInfo) (w : World) :
  http.Stat file = Ok info ->
  os.IsDir info = true ->
  serveOpened f r file bc w =
    if String.eqb (http.Method r) "GET" || String.eqb (http.Method r) "HEAD"
    then
      if strings.HasSuffix (http.URLPath r) "/"
      then ServeListing f r file bc (logged w [CallStat])
      else (Returned 0 None,
            redirected (logged w [CallStat]) r (http.URLPath r +:+ "/") 307)
    else if String.eqb (http.Method r) "PROPFIND"
            || String.eqb (http.Method r) "OPTIONS"
    then (Returned 501 None, logged w [CallStat])
    else (Deferred, logged w [CallStat]).
Proof.
  intros Hstat Hdir. unfold serveOpened. run_handler. rewrite Hstat, Hdir.
  cbn [negb]. unfold http.MethodGet, http.MethodHead, http.MethodOptions.
  destruct (String.eqb (http.Method r) "GET" || String.eqb (http.Method r) "HEAD").
  - destruct (strings.HasSuffix (http.URLPath r) "/"); reflexivity.
  - destruct (String.eqb (http.Method r) "PROPFIND"
              || String.eqb (http.Method r) "OPTIONS"); reflexivity.
Qed.

(** [ServeHTTP] once the scope is found and the target is open. *)
Lemma ServeHTTP_opened (f : FileManager) (r : http.Request) (bc : Config)
    (file : http.File) (w : World) :
  findConfig (Configs f) (http.URLPath r) = Some bc ->
  Root bc (http.URLPath r) = Ok file ->
  ServeHTTP f r w =
    let '(out, w') :=
      serveOpened f r file bc (logged w [CallOpen (http.URLPath r)]) in
    (out, logged w' [CallClose]).
Proof.
  intros Hscope Hopen. unfold ServeHTTP. rewrite Hscope. run_handler.
  rewrite Hopen.
  destruct (serveOpened f r file bc _) as [out w']. reflexivity.
Qed.

End RouterFacts.

(** X1. The scope of a request is the first configuration, in declaration
    order, whose scope the path matches: it is found exactly when the
    configurations before it do not match and it does. *)
Theorem first_matching_scope_wins `{Env} (configs : list Config) (p : string)
    (bc : Config) :
  findConfig configs p = Some bc <->
  exists before after,
    configs = (before ++ bc :: after)%list /\
    Matches p (PathScope bc) = true /\
    forall c, c ∈ before -> Matches p (PathScope c) = false.
Proof. apply findConfig_some. Qed.

(** X2. A request whose path matches no configured scope is handed to the
    next handler with nothing done: no file is opened, nothing is written and
    no preference is recorded. *)
Theorem unmatched_request_is_passed_on `{Env} (f : FileManager)
    (r : http.Request) (w : World) :
  (forall c, c ∈ Configs f -> Matches (http.URLPath r) (PathScope c) = false) ->
  ServeHTTP f r w = (Deferred, w).
Proof.
  intros Hnone. apply findConfig_none in Hnone.
  unfold ServeHTTP. rewrite Hnone. reflexivity.
Qed.

Lemma unmatched_request_is_passed_on_witness :
  ServeHTTP (H := Sample.env)
    {| Configs := [Sample.srvConfig]; IgnoreIndexes := false |}
    (Sample.request "GET" "/etc/") Sample.world = (Deferred, Sample.world).
Proof.
  apply (unmatched_request_is_passed_on (H := Sample.env)).
  intros c Hc. apply list_elem_of_singleton in Hc as ->. reflexivity.
Defined.

(** X3. When the opened target cannot be examined ([Stat] fails), a
    permission error is answered with 403, an already-exists error with 410
    (not the 404 of a failed open), and any other error hands the request to
    the next handler; in each case the file is closed and nothing else is
    done. *)
Theorem stat_failure_statuses `{Env} (f : FileManager) (r : http.Request)
    (bc : Config) (file : http.File) (e : error) (w : World) :
  findConfig (Configs f) (http.URLPath r) = Some bc ->
  Root bc (http.URLPath r) = Ok file ->
  http.Stat file = Failed e ->
  ServeHTTP f r w =
    ((if os.IsPermission e then Returned 403 (Some e)
      else if os.IsExist e then Returned 410 (Some e)
      else Deferred),
     logged w [CallOpen (http.URLPath r); CallStat; CallClose]).
Proof.
  intros Hscope Hopen Hstat.
  rewrite (ServeHTTP_opened f r bc file w Hscope Hopen).
  unfold serveOpened. run_handler. rewrite Hstat.
  destruct (os.IsPermission e); [|destruct (os.IsExist e)];
    cbn; rewrite <- !app_assoc; reflexivity.
Qed.

Lemma stat_failure_statuses_witness :
  ServeHTTP (H := Sample.env) Sample.fmMore
    (Sample.request "GET" "/vanished/") Sample.world =
  (Returned 410 (Some Sample.errClash),
   logged Sample.world [CallOpen "/vanished/"; CallStat; CallClose]).
Proof.
  apply (stat_failure_statuses (H := Sample.env) Sample.fmMore
           (Sample.request "GET" "/vanished/") Sample.rootConfig
           Sample.vanished Sample.errClash Sample.world);
    reflexivity.
Defined.

(** X4. A target that opens but is not a directory is handed to the next
    handler whatever the method and the path look like; the file is closed,
    and it is never read as a directory. *)
Theorem non_directory_is_passed_on `{Env} (f : FileManager) (r : http.Request)
    (bc : Config) (file : http.File) (info : os.FileInfo) (w : World) :
  findConfig (Configs f) (http.URLPath r) = Some bc ->
  Root bc (http.URLPath r) = Ok file ->
  http.Stat file = Ok info ->
  os.IsDir info = false ->
  ServeHTTP f r w =
    (Deferred, logged w [CallOpen (http.URLPath r); CallStat; CallClose]).
Proof.
  intros Hscope Hopen Hstat Hdir.
  rewrite (ServeHTTP_opened f r bc file w Hscope Hopen).
  unfold serveOpened. run_handler. rewrite Hstat, Hdir.
  cbn. rewrite <- !app_assoc. reflexivity.
Qed.

Lemma non_directory_is_passed_on_witness :
  ServeHTTP (H := Sample.env) Sample.fmMore
    (Sample.request "GET" "/notes.txt") Sample.world =
  (Deferred, logged Sample.world [CallOpen "/notes.txt"; CallStat; CallClose]).
Proof.
  apply (non_directory_is_passed_on (H := Sample.env) Sample.fmMore
           (Sample.request "GET" "/notes.txt") Sample.rootConfig Sample.plain
           (Sample.file "notes.txt" 12) Sample.world);
    reflexivity.
Defined.

(** X5. On an in-scope directory, a method other than GET and HEAD never
    leads to a listing or a redirect, with or without the closing separator:
    PROPFIND and OPTIONS are answered with 501 and no error, every other
    method is handed to the next handler; the directory is not read. *)
Theorem other_methods_are_not_listed `{Env} (f : FileManager)
    (r : http.Request) (bc : Config) (file : http.File) (info : os.FileInfo)
    (w : World) :
  findConfig (Configs f) (http.URLPath r) = Some bc ->
  Root bc (http.URLPath r) = Ok file ->
  http.Stat file = Ok info ->
  os.IsDir info = true ->
  http.Method r <> "GET" ->
  http.Method r <> "HEAD" ->
  ServeHTTP f r w =
    ((if String.eqb (http.Method r) "PROPFIND"
         || String.eqb (http.Method r) "OPTIONS"
      then Returned 501 None else Deferred),
     logged w [CallOpen (http.URLPath r); CallStat; CallClose]).
Proof.
  intros Hscope Hopen Hstat Hdir Hget Hhead.
  rewrite (ServeHTTP_opened f r bc file w Hscope Hopen).
  rewrite (serveOpened_directory f r file bc info _ Hstat Hdir).
  apply String.eqb_neq in Hget, Hhead. rewrite Hget, Hhead. cbn [orb].
  destruct (String.eqb (http.Method r) "PROPFIND"
            || String.eqb (http.Method r) "OPTIONS");
    unfold logged; cbn; rewrite <- !app_assoc; reflexivity.
Qed.

Lemma other_methods_are_not_listed_witness :
  ServeHTTP (H := Sample.env) Sample.fmMore
    (Sample.request "OPTIONS" "/srv") Sample.world =
  (Returned 501 None,
   logged Sample.world [CallOpen "/srv"; CallStat; CallClose]) /\
  ServeHTTP (H := Sample.env) Sample.fmMore
    (Sample.request "POST" "/srv/") Sample.world =
  (Deferred, logged Sample.world [CallOpen "/srv/"; CallStat; CallClose]).
Proof.
  split.
  - apply (other_methods_are_not_listed (H := Sample.env) Sample.fmMore
             (Sample.request "OPTIONS" "/srv") Sample.srvConfig Sample.srv
             (Sample.dir "srv") Sample.world);
      first [reflexivity | discriminate].
  - apply (other_methods_are_not_listed (H := Sample.env) Sample.fmMore
             (Sample.request "POST" "/srv/") Sample.srvConfig Sample.srv
             (Sample.dir "srv") Sample.world);
      first [reflexivity | discriminate].
Defined.

(** ** Every way the handler ends *)

Section Outcomes.
Context `{Env}.

Lemma present_presented (r : http.Request) (listing : Listing.t) (bc : Config)
    (w : World) :
  Presented w (present r listing bc w).1 (present r listing bc w).2.
Proof.
  destruct (wantsJSON r) eqn:Hjson.
  - rewrite (present_json r listing bc w Hjson).
    destruct (jsonMarshal (Listing.Items listing)) as [body|e]; cbn [fst snd].
    + apply PresentedJSON.
    + apply PresentedFailure. by left.
  - rewrite (present_html r listing bc w Hjson).
    destruct (Template_ bc listing) as [body [e|]]; cbn [fst snd].
    + apply PresentedFailure. by right.
    + apply PresentedHTML.
Qed.

Lemma ServeListing_listed (f : FileManager) (r : http.Request)
    (file : http.File) (bc : Config) (w : World) :
  Listed f r bc w (ServeListing f r file bc w).1 (ServeListing f r file bc w).2.
Proof.
  destruct (http.Readdir file) as [files [e|]] eqn:Hread.
  - unfold ServeListing, loadDirectoryContents. run_handler. rewrite Hread.
    cbn beta iota.
    destruct (os.IsPermission e); [|destruct (os.IsExist e)]; cbn [fst snd];
      apply ListedReadFailure; auto.
  - rewrite (ServeListing_loaded f r file bc files w Hread). cbn zeta.
    destruct ((directoryListing files _ _).2 && negb (IgnoreIndexes f))
      eqn:Hindex.
    + cbn [fst snd]. apply ListedIndex.
      apply andb_true_iff in Hindex as [_ Hignore].
      by destruct (IgnoreIndexes f).
    + destruct (handleSortOrder r (PathScope bc) (logged w [CallReaddir]))
        as [[[[sort order] limit] [e|]] w1] eqn:Hquery.
      * cbn [fst snd]. by eapply ListedBadQuery.
      * eapply ListedPresented; [exact Hquery|]. apply present_presented.
Qed.

Lemma ServeHTTP_routed (f : FileManager) (r : http.Request) (w : World) :
  Routed f r w (ServeHTTP f r w).1 (ServeHTTP f r w).2.
Proof.
  destruct (findConfig (Configs f) (http.URLPath r)) as [bc|] eqn:Hscope.
  2: { unfold ServeHTTP. rewrite Hscope. apply RoutedUnmatched. }
  destruct (Root bc (http.URLPath r)) as [file|e] eqn:Hopen.
  2: { unfold ServeHTTP. rewrite Hscope. run_handler. rewrite Hopen.
       destruct (os.IsPermission e); [|destruct (os.IsExist e)]; cbn [fst snd];
         apply (RoutedOpenFailure f r w _ e); auto. }
  rewrite (ServeHTTP_opened f r bc file w Hscope Hopen).
  destruct (http.Stat file) as [info|e] eqn:Hstat.
  2: { unfold serveOpened. run_handler. rewrite Hstat.
       destruct (os.IsPermission e); [|destruct (os.IsExist e)];
         cbn; rewrite <- !app_assoc; apply RoutedUnlisted; eauto. }
  destruct (os.IsDir info) eqn:Hdir.
  2: { unfold serveOpened. run_handler. rewrite Hstat, Hdir.
       cbn; rewrite <- !app_assoc; apply RoutedUnlisted; eauto. }
  rewrite (serveOpened_directory f r file bc info _ Hstat Hdir).
  destruct (String.eqb (http.Method r) "GET" || String.eqb (http.Method r) "HEAD")
    eqn:Hmethod.
  - apply orb_true_iff in Hmethod. rewrite !String.eqb_eq in Hmethod.
    destruct (strings.HasSuffix (http.URLPath r) "/") eqn:Hslash.
    + pose proof (ServeListing_listed f r file bc
                    (logged (logged w [CallOpen (http.URLPath r)]) [CallStat]))
        as Hlisted.
      destruct (ServeListing f r file bc _) as [out w'].
      cbn [fst snd] in *. apply (RoutedListed f r w bc); [done | done |].
      unfold logged in *. cbn in *. rewrite <- !app_assoc in Hlisted.
      exact Hlisted.
    + unfold logged, redirected. cbn. rewrite <- !app_assoc.
      by apply RoutedRedirect.
  - destruct (String.eqb (http.Method r) "PROPFIND"
              || String.eqb (http.Method r) "OPTIONS");
      unfold logged; cbn; rewrite <- !app_assoc; apply RoutedUnlisted; eauto.
Qed.

End Outcomes.

Lemma handleSortOrder_calls (r : http.Request) (scope : string) (w : World) :
  calls (handleSortOrder r scope w).2 = calls w.
Proof.
  unfold handleSortOrder, getPref, putPref. run_handler.
  destruct (resolveText (http.Query r !! "sort") _ _ _ _) as [[sort keep]|e];
    [|reflexivity].
  destruct (resolveText (http.Query r !! "order") _ _ _ _) as [[order keep']|e];
    [|reflexivity].
  destruct (resolveLimit _ _) as [[limit keep'']|e]; [|reflexivity].
  destruct (supplied _ "sort" || supplied _ "order" || supplied _ "limit");
    reflexivity.
Qed.

Lemma Listed_calls (f : FileManager) (r : http.Request) (bc : Config)
    (w : World) (out : Outcome) (w' : World) :
  Listed f r bc w out w' ->
  exists rendering,
    calls w' = (calls w ++ CallReaddir :: rendering)%list /\
    (rendering = [] \/ rendering = [CallMarshal] \/ rendering = [CallExecute]).
Proof.
  intros Hlisted.
  destruct Hlisted as [status e _ | _ | sort order limit e w1 Hq
                      | sort order limit w1 out w' Hq Hpresented].
  - exists []. split; [done | by left].
  - exists []. split; [done | by left].
  - exists []. split; [|by left].
    rewrite <- (f_equal snd Hq : (handleSortOrder _ _ _).2 = w1).
    apply handleSortOrder_calls.
  - assert (calls w1 = (calls w ++ [CallReaddir])%list) as Hw1.
    { rewrite <- (f_equal snd Hq : (handleSortOrder _ _ _).2 = w1).
      apply handleSortOrder_calls. }
    destruct Hpresented as [body | body | c e Hc]; cbn [calls wrote logged];
      rewrite Hw1, <- app_assoc.
    + exists [CallMarshal]. split; [done | by right; left].
    + exists [CallExecute]. split; [done | by right; right].
    + exists [c]. split; [done|]. destruct Hc as [-> | ->]; auto.
Qed.

(** X6. Whenever [ServeHTTP] hands a request to the next handler, it has
    written nothing to the response and recorded no preference: the next
    handler starts from an untouched response. *)
Theorem deferred_leaves_response_untouched `{Env} (f : FileManager)
    (r : http.Request) (w : World) :
  (ServeHTTP f r w).1 = Deferred ->
  writer (ServeHTTP f r w).2 = writer w /\
  prefs (ServeHTTP f r w).2 = prefs w.
Proof.
  intros Hout. pose proof (ServeHTTP_routed f r w) as Hrouted.
  destruct (ServeHTTP f r w) as [out w']. cbn [fst snd] in *. subst out.
  inversion Hrouted
    as [ | out e Hout | out Hout | Hslash | bc out w1 Hmethod Hslash Hlisted];
    subst; try done.
  inversion Hlisted as [ | | | sort order limit w2 out w3 _ Hpresented];
    subst; try done.
  inversion Hpresented.
Qed.

Lemma deferred_leaves_response_untouched_witness :
  writer (ServeHTTP (H := Sample.env) Sample.fm (Sample.get "/site/" [] [])
            Sample.world).2 = http.freshWriter /\
  prefs (ServeHTTP (H := Sample.env) Sample.fm (Sample.get "/site/" [] [])
           Sample.world).2 = ∅.
Proof.
  apply (deferred_leaves_response_untouched (H := Sample.env) Sample.fm
           (Sample.get "/site/" [] []) Sample.world).
  reflexivity.
Defined.

(** X7. A target that was opened is closed exactly once, as the last call
    the handler makes. The calls are, in this order: the open, the stat,
    then nothing more, or the directory read alone, or the directory read
    followed by exactly one marshal or one execute call; and the close.
    When the open fails there is no close. *)
Theorem opened_file_is_closed_last `{Env} (f : FileManager) (r : http.Request)
    (bc : Config) (w : World) :
  findConfig (Configs f) (http.URLPath r) = Some bc ->
  match Root bc (http.URLPath r) with
  | Failed _ =>
      calls (ServeHTTP f r w).2 = (calls w ++ [CallOpen (http.URLPath r)])%list
  | Ok _ =>
      exists listing,
        calls (ServeHTTP f r w).2 =
          (calls w ++ CallOpen (http.URLPath r) :: CallStat :: listing
             ++ [CallClose])%list /\
        (listing = [] \/
         listing = [CallReaddir] \/
         listing = [CallReaddir; CallMarshal] \/
         listing = [CallReaddir; CallExecute])
  end.
Proof.
  intros Hscope.
  destruct (Root bc (http.URLPath r)) as [file|e] eqn:Hopen.
  2: { unfold ServeHTTP. rewrite Hscope. run_handler. rewrite Hopen.
       destruct (os.IsPermission e); [|destruct (os.IsExist e)]; reflexivity. }
  rewrite (ServeHTTP_opened f r bc file w Hscope Hopen).
  destruct (http.Stat file) as [info|e] eqn:Hstat.
  2: { unfold serveOpened. run_handler. rewrite Hstat. exists [].
       split; [|by left].
       destruct (os.IsPermission e); [|destruct (os.IsExist e)];
         cbn; rewrite <- !app_assoc; reflexivity. }
  destruct (os.IsDir info) eqn:Hdir.
  2: { unfold serveOpened. run_handler. rewrite Hstat, Hdir. exists [].
       split; [|by left]. cbn. rewrite <- !app_assoc. reflexivity. }
  rewrite (serveOpened_directory f r file bc info _ Hstat Hdir).
  destruct (String.eqb (http.Method r) "GET" || String.eqb (http.Method r) "HEAD").
  - destruct (strings.HasSuffix (http.URLPath r) "/").
    + pose proof (ServeListing_listed f r file bc
                    (logged (logged w [CallOpen (http.URLPath r)]) [CallStat]))
        as Hlisted.
      apply Listed_calls in Hlisted as (rendering & Hcalls & Hrendering).
      destruct (ServeListing f r file bc _) as [out w'].
      cbn [fst snd calls logged] in *.
      exists (CallReaddir :: rendering). split.
      * rewrite Hcalls, <- !app_assoc. reflexivity.
      * destruct Hrendering as [-> | [-> | ->]]; auto.
    + exists []. split; [|by left]. cbn. rewrite <- !app_assoc. reflexivity.
  - exists []. split; [|by left].
    destruct (String.eqb (http.Method r) "PROPFIND"
              || String.eqb (http.Method r) "OPTIONS");
      cbn; rewrite <- !app_assoc; reflexivity.
Qed.

Lemma opened_file_is_closed_last_witness :
  exists listing,
    calls (ServeHTTP (H := Sample.env) Sample.fm Sample.jsonRequest
             Sample.world).2
    = (CallOpen "/srv/" :: CallStat :: listing ++ [CallClose])%list /\
    (listing = [] \/
     listing = [CallReaddir] \/
     listing = [CallReaddir; CallMarshal] \/
     listing = [CallReaddir; CallExecute]).
Proof.
  exact (opened_file_is_closed_last (H := Sample.env) Sample.fm
           Sample.jsonRequest Sample.config Sample.world eq_refl).
Defined.

(** X8. When the directory cannot be read, [ServeListing] answers 403 for a
    permission error, 410 for an already-exists error and 500 for any other,
    each with the error; entries that came with the error are dropped, and
    nothing is written, resolved or rendered. *)
Theorem read_failure_statuses `{Env} (f : FileManager) (r : http.Request)
    (file : http.File) (bc : Config) (files : list os.FileInfo) (e : error)
    (w : World) :
  http.Readdir file = (files, Some e) ->
  ServeListing f r file bc w =
    (Returned (if os.IsPermission e then 403
               else if os.IsExist e then 410 else 500) (Some e),
     logged w [CallReaddir]).
Proof.
  intros Hread. unfold ServeListing, loadDirectoryContents. run_handler.
  rewrite Hread. cbn beta iota.
  destruct (os.IsPermission e); [|destruct (os.IsExist e)]; reflexivity.
Qed.

Lemma read_failure_statuses_witness :
  ServeListing (H := Sample.env) Sample.fmMore
    (Sample.request "GET" "/locked/") Sample.locked Sample.rootConfig
    Sample.world
  = (Returned 403 (Some Sample.errDenied), logged Sample.world [CallReaddir]).
Proof.
  apply (read_failure_statuses (H := Sample.env) Sample.fmMore
           (Sample.request "GET" "/locked/") Sample.locked Sample.rootConfig
           [Sample.file "half" 1] Sample.errDenied Sample.world).
  reflexivity.
Defined.

(** X9. With [IgnoreIndexes] set, [ServeListing] never hands the request to
    the next handler: a directory holding an index file is listed (or
    answered with an error) like any other. *)
Theorem ignoring_indexes_never_defers `{Env} (f : FileManager)
    (r : http.Request) (file : http.File) (bc : Config) (w : World) :
  IgnoreIndexes f = true ->
  (ServeListing f r file bc w).1 <> Deferred.
Proof.
  intros Hignore Hout. pose proof (ServeListing_listed f r file bc w) as Hlisted.
  destruct (ServeListing f r file bc w) as [out w']. cbn [fst snd] in *.
  subst out.
  inversion Hlisted as [ | Hfalse | | sort order limit w1 out w2 _ Hpresented];
    subst.
  - congruence.
  - inversion Hpresented.
Qed.

Lemma ignoring_indexes_never_defers_witness :
  (directoryListing (H := Sample.env) (http.Readdir Sample.site).1 false
     "/site/").2 = true /\
  (ServeListing (H := Sample.env) Sample.fmMore
     (Sample.request "GET" "/site/") Sample.site Sample.rootConfig
     Sample.world).1 <> Deferred.
Proof.
  split; [reflexivity|].
  apply (ignoring_indexes_never_defers (H := Sample.env) Sample.fmMore
           (Sample.request "GET" "/site/") Sample.site Sample.rootConfig
           Sample.world).
  reflexivity.
Defined.

(** X10. A return with status 200 has no error and comes only after the
    response got its [Content-Type], which is the JSON one or the HTML one,
    both with [charset=utf-8]. *)
Theorem ok_response_has_content_type `{Env} (f : FileManager)
    (r : http.Request) (w : World) (e : option error) :
  (ServeHTTP f r w).1 = Returned 200 e ->
  e = None /\
  (http.wHeader (writer (ServeHTTP f r w).2) !! "Content-Type"
     = Some "application/json; charset=utf-8" \/
   http.wHeader (writer (ServeHTTP f r w).2) !! "Content-Type"
     = Some "text/html; charset=utf-8").
Proof.
  intros Hout. pose proof (ServeHTTP_routed f r w) as Hrouted.
  destruct (ServeHTTP f r w) as [out w']. cbn [fst snd] in *. subst out.
  inversion Hrouted
    as [ | out e' Hout | out Hout | Hslash | bc out w1 Hmethod Hslash Hlisted];
    subst.
  - destruct Hout as [? | [? | ?]]; discriminate.
  - destruct Hout as [[? ?] | [[? ?] | [? | ?]]]; discriminate.
  - inversion Hlisted
      as [status e' Hstatus | | | sort order limit w2 out w3 _ Hpresented];
      subst.
    + destruct Hstatus as [? | [? | ?]]; discriminate.
    + inversion Hpresented; subst; cbn; split; try done.
      * left. apply lookup_insert_eq.
      * right. apply lookup_insert_eq.
Qed.

Lemma ok_response_has_content_type_witness :
  http.wHeader (writer (ServeHTTP (H := Sample.env) Sample.fm
                          Sample.jsonRequest Sample.world).2)
    !! "Content-Type" = Some "application/json; charset=utf-8" \/
  http.wHeader (writer (ServeHTTP (H := Sample.env) Sample.fm
                          Sample.jsonRequest Sample.world).2)
    !! "Content-Type" = Some "text/html; charset=utf-8".
Proof.
  apply (ok_response_has_content_type (H := Sample.env) Sample.fm
           Sample.jsonRequest Sample.world None).
  reflexivity.
Defined.

(** X11. The statuses [ServeHTTP] itself returns are 0, 200, 400, 403, 404,
    410, 500 and 501, and no other; 0 (the redirect), 200 and 501 come
    without an error, every other status comes with one. *)
Theorem returned_statuses `{Env} (f : FileManager) (r : http.Request)
    (w : World) (status : Z) (e : option error) :
  (ServeHTTP f r w).1 = Returned status e ->
  (e = None /\ (status = 0 \/ status = 200 \/ status = 501)) \/
  (e <> None /\
   (status = 400 \/ status = 403 \/ status = 404 \/ status = 410
    \/ status = 500)).
Proof.
  intros Hout. pose proof (ServeHTTP_routed f r w) as Hrouted.
  destruct (ServeHTTP f r w) as [out w']. cbn [fst snd] in *. subst out.
  inversion Hrouted
    as [ | out e' Hout | out Hout | Hslash | bc out w1 Hmethod Hslash Hlisted];
    subst.
  - destruct Hout as [[= -> ->] | [[= -> ->] | ?]]; [right | right | done];
      split; auto.
  - destruct Hout as [[? [= -> ->]] | [[? [= -> ->]] | [[= -> ->] | ?]]];
      [right | right | left | done]; split; auto.
  - left. split; auto.
  - inversion Hlisted
      as [status' e' Hstatus | | | sort order limit w2 out w3 _ Hpresented];
      subst.
    + right. split; [done|]. destruct Hstatus as [-> | [-> | ->]]; auto.
    + right. split; auto.
    + inversion Hpresented; subst; [left | left | right]; split; auto.
Qed.

Lemma returned_statuses_witness :
  (@None error = None /\ (0 = 0 \/ 0 = 200 \/ 0 = 501)) \/
  (@None error <> None /\
   (0 = 400 \/ 0 = 403 \/ 0 = 404 \/ 0 = 410 \/ 0 = 500)).
Proof.
  exact (returned_statuses (H := Sample.env) Sample.fm
           (Sample.get "/srv" [] []) Sample.world 0 None eq_refl).
Defined.

(** ** More on the assembled listing *)

Lemma filter_take_length {A : Type} (P : A -> bool) (n : nat) (l : list A) :
  (length (List.filter P (take n l)) <= length (List.filter P l))%nat.
Proof.
  revert n. induction l as [|x l IH]; intros [|n]; simpl; try lia.
  specialize (IH n). destruct (P x); simpl; lia.
Qed.

Lemma dirsAmong_items (files : list os.FileInfo) :
  dirsAmong (map itemOf files) = countDirs files /\
  filesAmong (map itemOf files) = countFiles files.
Proof.
  unfold dirsAmong, filesAmong, countDirs, countFiles.
  induction files as [|f files [IHd IHf]]; [done|].
  simpl. destruct (os.IsDir f); simpl; rewrite ?IHd, ?IHf; done.
Qed.

(** X12. The assembled listing has one item per raw entry, in the order of
    the entries; each item copies the entry's size and mode and carries its
    modification instant, moved to UTC. The listing has the request path and
    the up-navigation flag as given, and starts unlimited. *)
Theorem items_follow_entries `{Env} (files : list os.FileInfo) (canGoUp : bool)
    (urlPath : string) :
  let l := (directoryListing files canGoUp urlPath).1 in
  length (Listing.Items l) = length files /\
  (forall i f, files !! i = Some f ->
     exists fi, Listing.Items l !! i = Some fi /\
       FileInfo.Size fi = os.Size f /\
       FileInfo.Mode fi = os.Mode f /\
       os.instant (FileInfo.ModTime fi) = os.instant (os.ModTime f) /\
       os.location (FileInfo.ModTime fi) = "UTC") /\
  Listing.Path l = urlPath /\
  Listing.CanGoUp l = canGoUp /\
  Listing.ItemsLimitedTo l = 0.
Proof.
  cbn zeta. unfold directoryListing. cbn [fst Listing.Items Listing.Path
    Listing.CanGoUp Listing.ItemsLimitedTo].
  rewrite assemble_items. repeat split.
  - apply length_map.
  - intros i f Hf. exists (itemOf f). rewrite list_lookup_fmap, Hf.
    repeat split.
Qed.

(** X13. At assembly [NumDirs] and [NumFiles] are the numbers of directory
    and non-directory items in [Items]; after the limiting step they are
    upper bounds of these numbers, since they still describe the whole
    directory. *)
Theorem counts_agree_with_items `{Env} (files : list os.FileInfo)
    (canGoUp : bool) (urlPath : string) (limit : Z) :
  Z.of_nat (length files) <= maxInt ->
  let l := (directoryListing files canGoUp urlPath).1 in
  Listing.NumDirs l = Z.of_nat (dirsAmong (Listing.Items l)) /\
  Listing.NumFiles l = Z.of_nat (filesAmong (Listing.Items l)) /\
  Z.of_nat (dirsAmong (Listing.Items (applyLimit l limit)))
    <= Listing.NumDirs (applyLimit l limit) /\
  Z.of_nat (filesAmong (Listing.Items (applyLimit l limit)))
    <= Listing.NumFiles (applyLimit l limit).
Proof.
  intros Hlen l.
  destruct (assemble_counts files Hlen) as [Hd Hf].
  destruct (dirsAmong_items files) as [Hdi Hfi].
  assert (Listing.NumDirs l = Z.of_nat (dirsAmong (Listing.Items l)) /\
          Listing.NumFiles l = Z.of_nat (filesAmong (Listing.Items l)))
    as [HD HF].
  { subst l. unfold directoryListing.
    cbn [fst Listing.Items Listing.NumDirs Listing.NumFiles].
    rewrite assemble_items, Hd, Hf, Hdi, Hfi. done. }
  repeat split; [done | done | |].
  - destruct (applyLimit_counts l limit) as [-> _]. rewrite HD.
    unfold applyLimit. destruct ((0 <? limit) && _); [|lia].
    cbn [Listing.Items Listing.setItems]. unfold dirsAmong.
    pose proof (filter_take_length FileInfo.IsDir (Z.to_nat limit)
                  (Listing.Items l)). lia.
  - destruct (applyLimit_counts l limit) as [_ ->]. rewrite HF.
    unfold applyLimit. destruct ((0 <? limit) && _); [|lia].
    cbn [Listing.Items Listing.setItems]. unfold filesAmong.
    pose proof (filter_take_length (fun fi => negb (FileInfo.IsDir fi))
                  (Z.to_nat limit) (Listing.Items l)). lia.
Qed.

Lemma counts_agree_with_items_witness :
  Listing.NumDirs Sample.listing = Z.of_nat (dirsAmong (Listing.Items Sample.listing)) /\
  Listing.NumFiles Sample.listing = Z.of_nat (filesAmong (Listing.Items Sample.listing)) /\
  Z.of_nat (dirsAmong (Listing.Items (applyLimit Sample.listing 1)))
    <= Listing.NumDirs (applyLimit Sample.listing 1) /\
  Z.of_nat (filesAmong (Listing.Items (applyLimit Sample.listing 1)))
    <= Listing.NumFiles (applyLimit Sample.listing 1).
Proof.
  apply (counts_agree_with_items (H := Sample.env) Sample.entries false
           "/srv/" 1).
  vm_compute. discriminate.
Defined.

(** X14. The limiting step only ever drops items from the end: the items
    left are a prefix of the items before, for any limit. And, as documented
    on the field, once [ItemsLimitedTo] of a listing that was unlimited is
    not 0, it is the number of items left. *)
Theorem limit_keeps_a_prefix (l : Listing.t) (limit : Z) :
  (exists dropped,
     Listing.Items l = (Listing.Items (applyLimit l limit) ++ dropped)%list) /\
  (Listing.ItemsLimitedTo l = 0 ->
   Listing.ItemsLimitedTo (applyLimit l limit) <> 0 ->
   Z.of_nat (length (Listing.Items (applyLimit l limit)))
     = Listing.ItemsLimitedTo (applyLimit l limit)).
Proof.
  unfold applyLimit.
  destruct ((0 <? limit) && (limit <=? Z.of_nat (length (Listing.Items l))))
    eqn:Hguard.
  - apply andb_true_iff in Hguard as [Hpos Hle].
    apply Z.ltb_lt in Hpos. apply Z.leb_le in Hle.
    cbn [Listing.Items Listing.ItemsLimitedTo Listing.setItems]. split.
    + exists (drop (Z.to_nat limit) (Listing.Items l)).
      symmetry. apply take_drop.
    + intros _ _. rewrite length_take. lia.
  - split.
    + exists []. by rewrite app_nil_r.
    + intros Hzero Hnot. contradiction.
Qed.

Lemma limit_keeps_a_prefix_witness :
  Z.of_nat (length (Listing.Items (applyLimit Sample.listing 3)))
    = Listing.ItemsLimitedTo (applyLimit Sample.listing 3).
Proof.
  destruct (limit_keeps_a_prefix Sample.listing 3) as [_ Hdoc].
  apply Hdoc; [reflexivity | discriminate].
Defined.

(** ** More on the URLs of items *)

Lemma length_append (a b : string) :
  String.length (a +:+ b) = (String.length a + String.length b)%nat.
Proof. induction a as [|c a IH]; simpl; [done | by rewrite IH]. Qed.

Lemma substring_past_prefix (a b : string) (n : nat) :
  String.substring (String.length a) n (a +:+ b) = String.substring 0 n b.
Proof. induction a as [|c a IH]; simpl; [done | exact IH]. Qed.

Lemma HasSuffix_slash (s : string) : strings.HasSuffix (s +:+ "/") "/" = true.
Proof.
  unfold strings.HasSuffix. rewrite length_append.
  change (String.length "/") with 1%nat.
  replace (String.length s + 1 - 1)%nat with (String.length s) by lia.
  rewrite substring_past_prefix.
  apply andb_true_iff. split; [apply Nat.leb_le; lia | reflexivity].
Qed.

Lemma escape_app (a b : string) :
  url.escape (a +:+ b) = url.escape a +:+ url.escape b.
Proof.
  induction a as [|c a IH]; [done|].
  change (String c a +:+ b) with (String c (a +:+ b)).
  cbn [url.escape]. rewrite IH. by destruct (url.shouldEscape c).
Qed.

Lemma hexDigit_facts (c : ascii) :
  let hi := url.hexDigit (nat_of_ascii c / 16) in
  let lo := url.hexDigit (nat_of_ascii c mod 16) in
  url.shouldEscape hi = false /\ url.shouldEscape lo = false /\
  (unhex hi = nat_of_ascii c / 16)%nat /\ (unhex lo = nat_of_ascii c mod 16)%nat.
Proof.
  destruct c as [[] [] [] [] [] [] [] []]; vm_compute; repeat split.
Qed.

Lemma escaped_pair_inj (a b : ascii) :
  url.hexDigit (nat_of_ascii a / 16) = url.hexDigit (nat_of_ascii b / 16) ->
  url.hexDigit (nat_of_ascii a mod 16) = url.hexDigit (nat_of_ascii b mod 16) ->
  a = b.
Proof.
  intros Hhi Hlo.
  destruct (hexDigit_facts a) as (_ & _ & Ha1 & Ha2).
  destruct (hexDigit_facts b) as (_ & _ & Hb1 & Hb2).
  cbn zeta in *. rewrite Hhi in Ha1. rewrite Hlo in Ha2.
  rewrite Hb1 in Ha1. rewrite Hb2 in Ha2.
  assert (nat_of_ascii a = nat_of_ascii b) as Hn.
  { rewrite (Nat.div_mod_eq (nat_of_ascii a) 16),
            (Nat.div_mod_eq (nat_of_ascii b) 16). congruence. }
  rewrite <- (ascii_nat_embedding a), <- (ascii_nat_embedding b). by rewrite Hn.
Qed.

Lemma escape_inj (a b : string) : url.escape a = url.escape b -> a = b.
Proof.
  revert b. induction a as [|c a IH]; intros [|d b]; cbn [url.escape].
  - done.
  - destruct (url.shouldEscape d); discriminate.
  - destruct (url.shouldEscape c); discriminate.
  - destruct (url.shouldEscape c) eqn:Hc, (url.shouldEscape d) eqn:Hd;
      intros Heq.
    + injection Heq as Hhi Hlo Hrest.
      rewrite (escaped_pair_inj c d Hhi Hlo). f_equal. by apply IH.
    + injection Heq as <- _. discriminate.
    + injection Heq as -> _. discriminate.
    + injection Heq as -> Hrest. f_equal. by apply IH.
Qed.

Lemma escape_bytes (s : string) (c : ascii) :
  c ∈ list_ascii_of_string (url.escape s) ->
  c = "%"%char \/ url.shouldEscape c = false.
Proof.
  induction s as [|d s IH]; cbn [url.escape list_ascii_of_string].
  - intros Hc. by apply not_elem_of_nil in Hc.
  - destruct (hexDigit_facts d) as (Hhi & Hlo & _). cbn zeta in *.
    destruct (url.shouldEscape d) eqn:Hd; cbn [list_ascii_of_string];
      rewrite ?elem_of_cons; intros Hc.
    + destruct Hc as [-> | [-> | [-> | Hc]]]; auto.
    + destruct Hc as [-> | Hc]; auto.
Qed.

Lemma append_slash_inj (a b : string) : a +:+ "/" = b +:+ "/" -> a = b.
Proof.
  revert b. induction a as [|c a IH]; intros [|d b]; simpl; intros Heq.
  - done.
  - injection Heq as _ Heq. by destruct b.
  - injection Heq as _ Heq. by destruct a.
  - injection Heq as -> Heq. f_equal. by apply IH.
Qed.

Lemma append_empty_r (s : string) : s +:+ "" = s.
Proof.
  induction s as [|c s IH]; [done|].
  change (String c (s +:+ "") = String c s). by rewrite IH.
Qed.

Lemma encodedURL_unfold (f : os.FileInfo) :
  encodedURL f =
    "./" +:+ url.escape (os.Name f) +:+ (if os.IsDir f then "/" else "").
Proof.
  unfold encodedURL. destruct (os.IsDir f).
  - change ("./" +:+ os.Name f +:+ "/")
      with (String "." (String "/" (os.Name f +:+ "/"))).
    change (url.escape (String "." (String "/" (os.Name f +:+ "/"))))
      with (String "." (String "/" (url.escape (os.Name f +:+ "/")))).
    by rewrite escape_app.
  - change ("./" +:+ os.Name f) with (String "." (String "/" (os.Name f))).
    change (url.escape (String "." (String "/" (os.Name f))))
      with (String "." (String "/" (url.escape (os.Name f)))).
    by rewrite append_empty_r.
Qed.

Section UrlFacts.
Context `{Env}.

Lemma item_of_listing (files : list os.FileInfo) (canGoUp : bool)
    (urlPath : string) (fi : FileInfo.t) :
  fi ∈ Listing.Items (directoryListing files canGoUp urlPath).1 ->
  exists f, f ∈ files /\ fi = itemOf f.
Proof.
  unfold directoryListing. cbn [fst Listing.Items]. rewrite assemble_items.
  intros Hfi. apply list_elem_of_fmap in Hfi as (f & -> & Hf). by exists f.
Qed.

End UrlFacts.

(** X15. Every item's URL is relative: it starts with [./], so its first
    segment is [.] and never a name with a colon that could be read as a
    scheme; and the URL of a directory ends with the separator. *)
Theorem item_urls_are_relative `{Env} (files : list os.FileInfo)
    (canGoUp : bool) (urlPath : string) (fi : FileInfo.t) :
  fi ∈ Listing.Items (directoryListing files canGoUp urlPath).1 ->
  strings.HasPrefix (FileInfo.URL fi) "./" = true /\
  hd "" (strings.Split (FileInfo.URL fi) "/") = "." /\
  (FileInfo.IsDir fi = true -> strings.HasSuffix (FileInfo.URL fi) "/" = true).
Proof.
  intros Hfi. apply item_of_listing in Hfi as (f & _ & ->).
  cbn [itemOf FileInfo.URL FileInfo.IsDir]. rewrite encodedURL_unfold.
  split; [apply HasPrefix_spec; eexists; reflexivity | split; [reflexivity|]].
  intros ->. rewrite <- append_assoc. apply HasSuffix_slash.
Qed.

Lemma item_urls_are_relative_witness :
  strings.HasPrefix "./B/" "./" = true /\
  hd "" (strings.Split "./B/" "/") = "." /\
  (true = true -> strings.HasSuffix "./B/" "/" = true).
Proof.
  apply (item_urls_are_relative (H := Sample.env) Sample.entries false "/srv/"
           (itemOf (Sample.dir "B"))).
  vm_compute. apply list_elem_of_further. apply list_elem_of_here.
Defined.

(** X16. An item's URL holds no byte that would need escaping in a path,
    apart from the percent signs of the escapes themselves: in particular no
    [?], [#] or space, so a name cannot cut the link short or add a query or
    fragment to it. *)
Theorem item_urls_are_percent_safe `{Env} (files : list os.FileInfo)
    (canGoUp : bool) (urlPath : string) (fi : FileInfo.t) (c : ascii) :
  fi ∈ Listing.Items (directoryListing files canGoUp urlPath).1 ->
  c ∈ list_ascii_of_string (FileInfo.URL fi) ->
  (c = "%"%char \/ url.shouldEscape c = false) /\
  c <> "?"%char /\ c <> "#"%char /\ c <> " "%char.
Proof.
  intros Hfi Hc. apply item_of_listing in Hfi as (f & _ & ->).
  cbn [itemOf FileInfo.URL] in Hc. unfold encodedURL in Hc.
  assert (c = "%"%char \/ url.shouldEscape c = false) as Hsafe.
  { destruct (os.IsDir f); by apply escape_bytes in Hc. }
  split; [done|].
  destruct Hsafe as [-> | Hsafe]; [done|].
  repeat split; intros ->; discriminate.
Qed.

Lemma item_urls_are_percent_safe_witness :
  map FileInfo.URL
    (Listing.Items
       (directoryListing (H := Sample.env)
          [Sample.file "what? #1.txt" 3] false "/srv/").1)
    = ["./what%3F%20%231.txt"] /\
  ("%"%char = "%"%char \/ url.shouldEscape "%" = false) /\
  "%"%char <> "?"%char /\ "%"%char <> "#"%char /\ "%"%char <> " "%char.
Proof.
  split; [reflexivity|].
  apply (item_urls_are_percent_safe (H := Sample.env)
           [Sample.file "what? #1.txt" 3] false "/srv/"
           (itemOf (Sample.file "what? #1.txt" 3)) "%").
  - vm_compute. apply list_elem_of_here.
  - vm_compute. do 6 apply list_elem_of_further. apply list_elem_of_here.
Defined.

(** X17. Escaping loses nothing: two items of the same kind (both
    directories, or both not) with the same URL have the same name, so
    entries with different names never share a link. *)
Theorem item_urls_tell_names_apart `{Env} (files : list os.FileInfo)
    (canGoUp : bool) (urlPath : string) (fi fj : FileInfo.t) :
  fi ∈ Listing.Items (directoryListing files canGoUp urlPath).1 ->
  fj ∈ Listing.Items (directoryListing files canGoUp urlPath).1 ->
  FileInfo.IsDir fi = FileInfo.IsDir fj ->
  FileInfo.URL fi = FileInfo.URL fj ->
  FileInfo.Name fi = FileInfo.Name fj.
Proof.
  intros Hfi Hfj. apply item_of_listing in Hfi as (f & _ & ->).
  apply item_of_listing in Hfj as (g & _ & ->).
  cbn [itemOf FileInfo.URL FileInfo.IsDir FileInfo.Name].
  intros Hkind Hurl. unfold encodedURL in Hurl. rewrite <- Hkind in Hurl.
  destruct (os.IsDir f); apply escape_inj in Hurl.
  - injection Hurl as Hurl. by apply append_slash_inj.
  - by injection Hurl.
Qed.

Lemma item_urls_tell_names_apart_witness :
  FileInfo.Name (itemOf (Sample.dir "B")) = FileInfo.Name (itemOf (Sample.dir "B")).
Proof.
  apply (item_urls_tell_names_apart (H := Sample.env) Sample.entries false
           "/srv/" (itemOf (Sample.dir "B")) (itemOf (Sample.dir "B")));
    try reflexivity;
    vm_compute; apply list_elem_of_further; apply list_elem_of_here.
Defined.

(** ** More on breadcrumbs *)

Lemma Split_cons (s : string) (sep : ascii) :
  exists p ps, strings.Split s sep = p :: ps.
Proof.
  destruct s as [|c s]; simpl; [by eexists _, _|].
  destruct (Ascii.eqb c sep); [by eexists _, _|].
  destruct (strings.Split s sep); by eexists _, _.
Qed.

(** Joining what [Split] gave, with the same separator, gives the string
    back. *)
Lemma Join_Split (s : string) (sep : ascii) :
  strings.Join (strings.Split s sep) (String sep "") = s.
Proof.
  induction s as [|c s IH]; [reflexivity|].
  destruct (Split_cons s sep) as (p & ps & Hsplit).
  cbn [strings.Split]. rewrite Hsplit in *.
  destruct (Ascii.eqb_spec c sep) as [-> | _].
  - change (strings.Join ("" :: p :: ps) (String sep ""))
      with (String sep (strings.Join (p :: ps) (String sep ""))).
    by rewrite IH.
  - destruct ps as [|q ps].
    + cbn in *. by rewrite IH.
    + change (strings.Join (String c p :: q :: ps) (String sep ""))
        with (String c (strings.Join (p :: q :: ps) (String sep ""))).
      by rewrite IH.
Qed.

Lemma extend_app (a b : string) (segments : list string) :
  extend (a +:+ b) segments = a +:+ extend b segments.
Proof.
  revert b. induction segments as [|s segments IH]; intros b; [done|].
  cbn [extend fold_left]. fold (extend ((a +:+ b) +:+ "/" +:+ s) segments).
  fold (extend (b +:+ "/" +:+ s) segments).
  rewrite append_assoc. apply IH.
Qed.

Lemma extend_snoc (prefix : string) (segments : list string) (s : string) :
  extend prefix (segments ++ [s]) = extend prefix segments +:+ "/" +:+ s.
Proof. unfold extend. by rewrite fold_left_app. Qed.

Lemma extend_prefix (prefix : string) (segments : list string) :
  exists post, extend prefix segments = prefix +:+ post.
Proof.
  revert prefix. induction segments as [|s segments IH]; intros prefix.
  - exists "". by rewrite append_empty_r.
  - cbn [extend fold_left]. fold (extend (prefix +:+ "/" +:+ s) segments).
    destruct (IH (prefix +:+ "/" +:+ s)) as [post ->].
    exists ("/" +:+ s +:+ post). by rewrite !append_assoc.
Qed.

Lemma Join_extend (p : string) (segments : list string) :
  strings.Join (p :: segments) "/" = extend p segments.
Proof.
  revert p. induction segments as [|s segments IH]; intros p; [done|].
  change (strings.Join (p :: s :: segments) "/")
    with (p +:+ "/" +:+ strings.Join (s :: segments) "/").
  rewrite IH. cbn [extend fold_left].
  fold (extend (p +:+ "/" +:+ s) segments).
  by rewrite !extend_app.
Qed.

Lemma entriesAfter_snoc (prefix : string) (segments : list string) (s : string) :
  BreadcrumbSpec.entriesAfter prefix (segments ++ [s]) =
  (BreadcrumbSpec.entriesAfter prefix segments
     ++ [(extend prefix (segments ++ [s]), s)])%list.
Proof.
  revert prefix. induction segments as [|t segments IH]; intros prefix;
    [reflexivity|].
  cbn [app BreadcrumbSpec.entriesAfter]. rewrite IH. reflexivity.
Qed.

Lemma entriesAfter_elem (prefix : string) (segments : list string)
    (k v : string) :
  (k, v) ∈ BreadcrumbSpec.entriesAfter prefix segments ->
  exists before after,
    segments = (before ++ v :: after)%list /\
    k = extend prefix before +:+ "/" +:+ v.
Proof.
  revert prefix. induction segments as [|s segments IH]; intros prefix Hin.
  - by apply not_elem_of_nil in Hin.
  - cbn [BreadcrumbSpec.entriesAfter] in Hin.
    apply elem_of_cons in Hin as [[= -> ->] | Hin].
    + by exists [], segments.
    + apply IH in Hin as (before & after & -> & ->).
      by exists (s :: before), after.
Qed.

Lemma fold_emit_last (es : list (string * string)) (k v : string)
    (m : gmap string string) :
  fold_left BreadcrumbSpec.emit (es ++ [(k, v)]) m !! k = Some v.
Proof.
  rewrite fold_left_app. cbn. unfold BreadcrumbSpec.emit at 1. cbn.
  apply lookup_insert_eq.
Qed.

Lemma fold_emit_elem (es : list (string * string)) (k v : string)
    (m : gmap string string) :
  fold_left BreadcrumbSpec.emit es m !! k = Some v ->
  (k, v) ∈ es \/ m !! k = Some v.
Proof.
  revert m. induction es as [|[k' v'] es IH]; intros m Hlook; [by right|].
  cbn [fold_left] in Hlook. apply IH in Hlook as [Hin | Hlook].
  - left. by apply list_elem_of_further.
  - unfold BreadcrumbSpec.emit in Hlook. cbn in Hlook.
    destruct (decide (k' = k)) as [-> | Hne].
    + rewrite lookup_insert_eq in Hlook. injection Hlook as ->.
      left. apply list_elem_of_here.
    + rewrite lookup_insert_ne in Hlook by done. by right.
Qed.

(** What [BreadcrumbMap] returns for a path that is not empty, by entries. *)
Lemma BreadcrumbMap_entries (l : Listing.t) :
  Listing.Path l <> "" ->
  BreadcrumbMap l =
    fold_left BreadcrumbSpec.emit (BreadcrumbSpec.entries (Listing.Path l)) ∅.
Proof.
  intros Hpath. unfold BreadcrumbMap.
  destruct (Listing.Path l) as [|c s]; [done|].
  change (String.length (String c s) =? 0)%nat with false. cbv iota.
  rewrite (strip_as_specified c s).
  unfold BreadcrumbSpec.entries, range.
  destruct (strings.Split (BreadcrumbSpec.stripTrailingSep (String c s)) "/")
    as [|seg0 rest] eqn:Hsplit; [reflexivity|].
  cbn [rangeFrom fold_left].
  rewrite (crumbs_after (seg0 :: rest) [seg0] rest) by done.
  cbn [Nat.eqb andb strings.Join].
  destruct (String.eqb seg0 ""); reflexivity.
Qed.

Lemma strip_is_prefix (s : string) :
  BreadcrumbSpec.stripTrailingSep s = s \/
  s = BreadcrumbSpec.stripTrailingSep s +:+ "/".
Proof.
  induction s as [|c s IH]; [by left|].
  destruct s as [|d s].
  - cbn. destruct (Ascii.eqb_spec c "/") as [-> | _]; [by right | by left].
  - change (BreadcrumbSpec.stripTrailingSep (String c (String d s)))
      with (String c (BreadcrumbSpec.stripTrailingSep (String d s))).
    destruct IH as [-> | IH]; [by left|].
    right.
    change (String c (String d s) =
            String c (BreadcrumbSpec.stripTrailingSep (String d s) +:+ "/")).
    by rewrite <- IH.
Qed.

Lemma path_of_parts (path : string) (seg0 : string) (rest : list string) :
  strings.Split (BreadcrumbSpec.stripTrailingSep path) "/" = seg0 :: rest ->
  exists tail, path = extend seg0 rest +:+ tail.
Proof.
  intros Hsplit.
  pose proof (Join_Split (BreadcrumbSpec.stripTrailingSep path) "/") as Hjoin.
  rewrite Hsplit in Hjoin.
  change (String "/" "") with "/" in Hjoin. rewrite Join_extend in Hjoin.
  rewrite Hjoin.
  destruct (strip_is_prefix path) as [-> | Hpath].
  - exists "". by rewrite append_empty_r.
  - by exists "/".
Qed.

(** X18. The directory being listed is always in the map: for a path that
    is more than one separator, the path with its closing separator stripped
    is a key, and it is mapped to the last segment, the directory's name. *)
Theorem breadcrumb_of_listed_directory (l : Listing.t) :
  let lpath := BreadcrumbSpec.stripTrailingSep (Listing.Path l) in
  lpath <> "" ->
  BreadcrumbMap l !! lpath = Some (List.last (strings.Split lpath "/") "").
Proof.
  intros lpath Hlpath.
  assert (Listing.Path l <> "") as Hpath.
  { intros Hempty. subst lpath. by rewrite Hempty in Hlpath. }
  rewrite (BreadcrumbMap_entries l Hpath). unfold BreadcrumbSpec.entries.
  fold lpath.
  destruct (Split_cons lpath "/") as (seg0 & rest & Hsplit). rewrite Hsplit.
  pose proof (Join_Split lpath "/") as Hjoin. rewrite Hsplit in Hjoin.
  change (String "/" "") with "/" in Hjoin. rewrite Join_extend in Hjoin.
  destruct rest as [|s rest _] using rev_ind.
  - cbn in Hjoin. subst seg0.
    apply String.eqb_neq in Hlpath. rewrite Hlpath. cbn.
    unfold BreadcrumbSpec.emit. cbn. apply lookup_insert_eq.
  - rewrite entriesAfter_snoc, Hjoin, app_comm_cons, fold_emit_last.
    by rewrite app_comm_cons, last_last.
Qed.

Lemma breadcrumb_of_listed_directory_witness :
  BreadcrumbMap (listingAt "/srv/photos/") !! "/srv/photos" = Some "photos".
Proof.
  apply (breadcrumb_of_listed_directory (listingAt "/srv/photos/")).
  discriminate.
Defined.

(** X19. Every key of the map is a prefix of the path, so every breadcrumb
    leads to the listed directory or to one above it; and every key ends
    with the text it is mapped to. *)
Theorem breadcrumb_keys_are_ancestors (l : Listing.t) (k v : string) :
  BreadcrumbMap l !! k = Some v ->
  (exists post, Listing.Path l = k +:+ post) /\
  (exists pre, k = pre +:+ v).
Proof.
  intros Hlook.
  destruct (decide (Listing.Path l = "")) as [Hempty | Hpath].
  { unfold BreadcrumbMap in Hlook. rewrite Hempty in Hlook. cbn in Hlook.
    by rewrite lookup_empty in Hlook. }
  rewrite (BreadcrumbMap_entries l Hpath) in Hlook.
  apply fold_emit_elem in Hlook as [Hin | Hlook];
    [|by rewrite lookup_empty in Hlook].
  unfold BreadcrumbSpec.entries in Hin.
  destruct (Split_cons (BreadcrumbSpec.stripTrailingSep (Listing.Path l)) "/")
    as (seg0 & rest & Hsplit).
  rewrite Hsplit in Hin.
  destruct (path_of_parts _ _ _ Hsplit) as [tail Htail].
  apply elem_of_cons in Hin as [Hfirst | Hin].
  - destruct (String.eqb_spec seg0 "") as [-> | _]; injection Hfirst as -> ->.
    + split; [|by exists ""].
      destruct rest as [|s rest].
      * cbn in Htail. destruct (strip_is_prefix (Listing.Path l)) as [Hs | Hs].
        -- pose proof (Join_Split
                         (BreadcrumbSpec.stripTrailingSep (Listing.Path l)) "/")
             as Hjoin.
           rewrite Hsplit in Hjoin. cbn in Hjoin. congruence.
        -- pose proof (Join_Split
                         (BreadcrumbSpec.stripTrailingSep (Listing.Path l)) "/")
             as Hjoin.
           rewrite Hsplit in Hjoin. cbn in Hjoin. rewrite <- Hjoin in Hs.
           exists "". by rewrite Hs.
      * cbn [extend fold_left] in Htail.
        fold (extend ("" +:+ "/" +:+ s) rest) in Htail.
        destruct (extend_prefix ("" +:+ "/" +:+ s) rest) as [post Hpost].
        rewrite Hpost in Htail. exists (s +:+ post +:+ tail).
        rewrite Htail. cbn. by rewrite !append_assoc.
    + split; [|by exists ""].
      destruct (extend_prefix seg0 rest) as [post Hpost].
      rewrite Hpost in Htail. exists (post +:+ tail).
      by rewrite Htail, append_assoc.
  - apply entriesAfter_elem in Hin as (before & after & -> & ->). split.
    + unfold extend in Htail. rewrite fold_left_app in Htail.
      cbn [fold_left] in Htail.
      fold (extend seg0 before) in Htail.
      fold (extend (extend seg0 before +:+ "/" +:+ v) after) in Htail.
      destruct (extend_prefix (extend seg0 before +:+ "/" +:+ v) after)
        as [post Hpost].
      rewrite Hpost in Htail. exists (post +:+ tail).
      by rewrite Htail, append_assoc.
    + exists (extend seg0 before +:+ "/"). by rewrite append_assoc.
Qed.

Lemma breadcrumb_keys_are_ancestors_witness :
  (exists post, "/srv/photos/" = "/srv" +:+ post) /\
  (exists pre, "/srv" = pre +:+ "srv").
Proof.
  apply (breadcrumb_keys_are_ancestors (listingAt "/srv/photos/") "/srv" "srv").
  vm_compute. reflexivity.
Defined.

Lemma fold_emit_other (es : list (string * string)) (k : string)
    (m : gmap string string) :
  (forall v, (k, v) ∉ es) ->
  fold_left BreadcrumbSpec.emit es m !! k = m !! k.
Proof.
  revert m. induction es as [|[k' v'] es IH]; intros m Hnot; [done|].
  cbn [fold_left]. rewrite IH.
  - unfold BreadcrumbSpec.emit. cbn. apply lookup_insert_ne.
    intros ->. apply (Hnot v'). apply list_elem_of_here.
  - intros v Hin. apply (Hnot v). by apply list_elem_of_further.
Qed.

Lemma root_key_after (prefix : string) (segments : list string) (v : string) :
  ("/", v) ∈ BreadcrumbSpec.entriesAfter prefix segments ->
  prefix = "" /\ v = "" /\ exists rest, segments = "" :: rest.
Proof.
  intros Hin. apply entriesAfter_elem in Hin as (before & after & -> & Hk).
  assert (extend prefix before = "" /\ v = "") as [Hext ->].
  { destruct (extend prefix before) as [|x a].
    - change ("/" = String "/" v) in Hk. injection Hk as Hv. by subst v.
    - change ("/" = String x (a +:+ "/" +:+ v)) in Hk.
      injection Hk as _ Hk. by destruct a. }
  destruct before as [|b before].
  - cbn in Hext. subst prefix. repeat split. by exists after.
  - cbn [extend fold_left] in Hext. fold (extend (prefix +:+ "/" +:+ b) before) in Hext.
    destruct (extend_prefix (prefix +:+ "/" +:+ b) before) as [post Hpost].
    rewrite Hpost in Hext. by destruct prefix.
Qed.

Lemma Split_head_other (c : ascii) (s : string) (sep : ascii) :
  c <> sep ->
  exists p ps, strings.Split (String c s) sep = String c p :: ps.
Proof.
  intros Hne. cbn [strings.Split].
  apply Ascii.eqb_neq in Hne. rewrite Hne.
  destruct (strings.Split s sep); by eexists _, _.
Qed.

Lemma strip_head_other (c : ascii) (s : string) :
  c <> "/"%char ->
  exists t, BreadcrumbSpec.stripTrailingSep (String c s) = String c t.
Proof.
  intros Hne. destruct s as [|d s].
  - cbn. apply Ascii.eqb_neq in Hne. rewrite Hne. by eexists.
  - by eexists.
Qed.

(** X20. The root entry. A path that does not start with the separator has
    no key [/]; a path that starts with exactly one separator has the root
    entry, [/] mapped to [/]; a path that starts with two separators has the
    key [/] mapped to the empty second segment instead. *)
Theorem breadcrumb_root_entry (l : Listing.t) (c : ascii) (s : string) :
  Listing.Path l = String c s ->
  (c <> "/"%char -> BreadcrumbMap l !! "/" = None) /\
  (c = "/"%char -> (forall s', s <> String "/" s') ->
     BreadcrumbMap l !! "/" = Some "/") /\
  (c = "/"%char -> (exists s', s = String "/" s') ->
     BreadcrumbMap l !! "/" = Some "").
Proof.
  intros Hpath.
  assert (Listing.Path l <> "") as Hnonempty by (by rewrite Hpath).
  rewrite (BreadcrumbMap_entries l Hnonempty), Hpath.
  unfold BreadcrumbSpec.entries. split; [|split].
  - intros Hc.
    destruct (strip_head_other c s Hc) as [t ->].
    destruct (Split_head_other c t "/" Hc) as (p & ps & ->).
    change (String.eqb (String c p) "") with false. cbv iota.
    rewrite fold_emit_other; [apply lookup_empty|].
    intros v Hin. apply elem_of_cons in Hin as [Hin | Hin].
    + injection Hin as Hk _ _. congruence.
    + apply root_key_after in Hin as [? _]. discriminate.
  - intros -> Hsingle. destruct s as [|d s].
    + vm_compute. reflexivity.
    + assert (d <> "/"%char) as Hd by (intros ->; by apply (Hsingle s)).
      change (BreadcrumbSpec.stripTrailingSep (String "/" (String d s)))
        with (String "/" (BreadcrumbSpec.stripTrailingSep (String d s))).
      destruct (strip_head_other d s Hd) as [t ->].
      change (strings.Split (String "/" (String d t)) "/")
        with ("" :: strings.Split (String d t) "/").
      destruct (Split_head_other d t "/" Hd) as (p & ps & ->).
      cbn [String.eqb fold_left].
      rewrite fold_emit_other.
      * unfold BreadcrumbSpec.emit. cbn. apply lookup_insert_eq.
      * intros v Hin. apply root_key_after in Hin as (_ & _ & rest & Hrest).
        discriminate.
  - intros -> [s' ->].
    change (BreadcrumbSpec.stripTrailingSep (String "/" (String "/" s')))
      with (String "/" (BreadcrumbSpec.stripTrailingSep (String "/" s'))).
    assert (exists rest,
              strings.Split (BreadcrumbSpec.stripTrailingSep (String "/" s')) "/"
              = "" :: rest) as [rest Hsplit].
    { destruct s' as [|d s']; [by exists [] |].
      change (BreadcrumbSpec.stripTrailingSep (String "/" (String d s')))
        with (String "/" (BreadcrumbSpec.stripTrailingSep (String d s'))).
      by eexists. }
    change (strings.Split (String "/" ?x) "/") with ("" :: strings.Split x "/").
    cbn [strings.Split Ascii.eqb Bool.eqb]. rewrite Hsplit.
    cbn [String.eqb fold_left BreadcrumbSpec.entriesAfter].
    rewrite fold_emit_other.
    + unfold BreadcrumbSpec.emit. cbn. apply lookup_insert_eq.
    + intros v Hin. apply root_key_after in Hin as [? _]. discriminate.
Qed.

Lemma breadcrumb_root_entry_witness :
  BreadcrumbMap (listingAt "docs/api/") !! "/" = None /\
  BreadcrumbMap (listingAt "/docs/api/") !! "/" = Some "/" /\
  BreadcrumbMap (listingAt "//docs/") !! "/" = Some "".
Proof.
  split; [|split].
  - apply (breadcrumb_root_entry (listingAt "docs/api/") "d" "ocs/api/" eq_refl).
    discriminate.
  - apply (breadcrumb_root_entry (listingAt "/docs/api/") "/" "docs/api/" eq_refl);
      [reflexivity | discriminate].
  - apply (breadcrumb_root_entry (listingAt "//docs/") "/" "/docs/" eq_refl);
      [reflexivity | by exists "docs/"].
Defined.

(** ** Assets *)





Lemma string_of_list_app (a b : list ascii) :
  string_of_list_ascii (a ++ b)
  = string_of_list_ascii a +:+ string_of_list_ascii b.
Proof. induction a as [|c a IH]; [done|]. cbn. by rewrite IH. Qed.

Lemma scanExt_spec (reversed suffix : list ascii) :
  filepath.scanExt reversed suffix = [] \/
  exists passed rest,
    reversed = (passed ++ "."%char :: rest)%list /\
    (forall c, c ∈ passed -> c <> "."%char /\ c <> "/"%char) /\
    filepath.scanExt reversed suffix = ("."%char :: rev passed ++ suffix)%list.
Proof.
  revert suffix. induction reversed as [|c reversed IH]; intros suffix;
    [by left|].
  cbn [filepath.scanExt].
  destruct (Ascii.eqb_spec c "/") as [-> | Hslash]; [by left|].
  destruct (Ascii.eqb_spec c ".") as [-> | Hdot].
  - right. exists [], reversed. split; [done|]. split; [|done].
    intros d Hd. by apply not_elem_of_nil in Hd.
  - destruct (IH (c :: suffix)) as [Hnone | (passed & rest & -> & Hpassed & Hscan)];
      [by left|].
    right. exists (c :: passed), rest. split; [done|]. split.
    + intros d Hd. apply elem_of_cons in Hd as [-> | Hd];
        [done | by apply Hpassed].
    + rewrite Hscan. cbn [rev]. by rewrite <- app_assoc.
Qed.



(** X22. The extension that decides an asset's content type is a suffix of
    the name; it is empty, or it starts at a dot and holds no further dot and
    no separator: it is the text from the last dot of the last path element
    on. *)
Theorem extension_is_last_dot_suffix (name : string) :
  exists before, name = before +:+ filepath.Ext name /\
    (filepath.Ext name = "" \/
     exists e, filepath.Ext name = String "." e /\
       forall c, c ∈ list_ascii_of_string e ->
         c <> "."%char /\ c <> "/"%char).
Proof.
  unfold filepath.Ext.
  destruct (scanExt_spec (rev (list_ascii_of_string name)) [])
    as [-> | (passed & rest & Hrev & Hpassed & ->)].
  - exists name. split; [by rewrite append_empty_r | by left].
  - rewrite app_nil_r.
    assert (list_ascii_of_string name = (rev rest ++ "."%char :: rev passed)%list)
      as Hname.
    { rewrite <- (rev_involutive (list_ascii_of_string name)), Hrev.
      rewrite rev_app_distr. cbn [rev]. by rewrite <- app_assoc. }
    exists (string_of_list_ascii (rev rest)). split.
    + rewrite <- string_of_list_app, <- Hname.
      symmetry. apply string_of_list_ascii_of_string.
    + right. exists (string_of_list_ascii (rev passed)). split; [done|].
      intros c Hc. rewrite list_ascii_of_string_of_list_ascii in Hc.
      apply Hpassed. apply list_elem_of_In. apply in_rev.
      by apply list_elem_of_In.
Qed.

Example extensions :
  map filepath.Ext ["/css/styles.css"; "/js/app.min.js"; "/v1.2/README"; ""; "a."]
  = [".css"; ".js"; ""; ""; "."].
Proof. vm_compute. reflexivity. Qed.

(** ** More on what is served when *)

Lemma substring_prefix (a b : string) :
  String.substring 0 (String.length a) (a +:+ b) = a.
Proof.
  induction a as [|c a IH]; [by destruct b|].
  change (String c (String.substring 0 (String.length a) (a +:+ b)) = String c a).
  by rewrite IH.
Qed.

Lemma TrimSuffix_slash (p : string) : strings.TrimSuffix (p +:+ "/") "/" = p.
Proof.
  unfold strings.TrimSuffix, strings.slice_to. rewrite HasSuffix_slash.
  rewrite length_append. change (String.length "/") with 1%nat.
  replace (String.length p + 1 - 1)%nat with (String.length p) by lia.
  apply substring_prefix.
Qed.

(** X23. Up-navigation. For a request path that ends with the separator,
    once the directory is read the listing's [CanGoUp] is true exactly when
    some configured scope, the matched one or any other, is a prefix of the
    parent of the path without its closing separator. *)
Theorem can_go_up_into_any_scope `{Env} (f : FileManager) (file : http.File)
    (files : list os.FileInfo) (p : string) (w : World) :
  http.Readdir file = (files, None) ->
  exists listing hasIndex,
    (loadDirectoryContents f file (p +:+ "/") w).1 = Ok (listing, hasIndex) /\
    (Listing.CanGoUp listing = true <->
     exists other rest,
       other ∈ Configs f /\ pathDir p = PathScope other +:+ rest).
Proof.
  intros Hread. unfold loadDirectoryContents. run_handler. rewrite Hread.
  cbn beta iota zeta.
  destruct (directoryListing files (canGoUpFrom f (p +:+ "/")) (p +:+ "/"))
    as [listing hasIndex] eqn:Hlisting.
  exists listing, hasIndex. split; [done|].
  assert (Listing.CanGoUp listing = canGoUpFrom f (p +:+ "/")) as ->.
  { unfold directoryListing in Hlisting. by injection Hlisting as <- _. }
  unfold canGoUpFrom. rewrite TrimSuffix_slash, existsb_exists. split.
  - intros (other & Hin & Hprefix). apply HasPrefix_spec in Hprefix as [rest ?].
    exists other, rest. split; [by apply list_elem_of_In | done].
  - intros (other & rest & Hin & Hdir). exists other.
    split; [by apply list_elem_of_In|]. apply HasPrefix_spec. by exists rest.
Qed.

Lemma can_go_up_into_any_scope_witness :
  exists listing hasIndex,
    (loadDirectoryContents (H := Sample.env) Sample.fmMore Sample.srv
       ("/srv/photos" +:+ "/") Sample.world).1 = Ok (listing, hasIndex) /\
    (Listing.CanGoUp listing = true <->
     exists other rest,
       other ∈ Configs Sample.fmMore /\
       "/srv/photos" = PathScope other +:+ rest).
Proof.
  exact (can_go_up_into_any_scope (H := Sample.env) Sample.fmMore Sample.srv
           Sample.entries "/srv/photos" Sample.world eq_refl).
Defined.

(** X24. A status 200 is returned only for a GET or HEAD request whose path
    ends with the separator: no other request is ever answered with a
    listing. *)
Theorem listing_only_for_get_head_with_separator `{Env} (f : FileManager)
    (r : http.Request) (w : World) (e : option error) :
  (ServeHTTP f r w).1 = Returned 200 e ->
  (http.Method r = "GET" \/ http.Method r = "HEAD") /\
  strings.HasSuffix (http.URLPath r) "/" = true.
Proof.
  intros Hout. pose proof (ServeHTTP_routed f r w) as Hrouted.
  destruct (ServeHTTP f r w) as [out w']. cbn [fst snd] in *. subst out.
  inversion Hrouted
    as [ | out e' Hout | out Hout | Hslash | bc out w1 Hmethod Hslash Hlisted];
    subst.
  - destruct Hout as [? | [? | ?]]; discriminate.
  - destruct Hout as [[? ?] | [[? ?] | [? | ?]]]; discriminate.
  - done.
Qed.

Lemma listing_only_for_get_head_with_separator_witness :
  (http.Method Sample.jsonRequest = "GET" \/
   http.Method Sample.jsonRequest = "HEAD") /\
  strings.HasSuffix (http.URLPath Sample.jsonRequest) "/" = true.
Proof.
  apply (listing_only_for_get_head_with_separator (H := Sample.env) Sample.fm
           Sample.jsonRequest Sample.world None).
  reflexivity.
Defined.

(** X25. The target of the redirect is final: a request whose path ends with
    the separator, as every redirect target does, is never answered with the
    redirect (status 0) again. *)
Theorem redirect_target_is_final `{Env} (f : FileManager) (r : http.Request)
    (w : World) (p : string) (e : option error) :
  http.URLPath r = p +:+ "/" ->
  (ServeHTTP f r w).1 <> Returned 0 e.
Proof.
  intros Hpath Hout. pose proof (ServeHTTP_routed f r w) as Hrouted.
  destruct (ServeHTTP f r w) as [out w']. cbn [fst snd] in *. subst out.
  inversion Hrouted
    as [ | out e' Hout | out Hout | Hslash | bc out w1 Hmethod Hslash Hlisted];
    subst.
  - destruct Hout as [? | [? | ?]]; discriminate.
  - destruct Hout as [[? ?] | [[? ?] | [? | ?]]]; discriminate.
  - rewrite Hpath, HasSuffix_slash in Hslash. discriminate.
  - inversion Hlisted
      as [status e' Hstatus | | | sort order limit w2 out w3 _ Hpresented];
      subst.
    + destruct Hstatus as [? | [? | ?]]; discriminate.
    + inversion Hpresented.
Qed.

Lemma redirect_target_is_final_witness :
  (ServeHTTP (H := Sample.env) Sample.fm (Sample.get "/srv" [] [])
     Sample.world).1 = Returned 0 None /\
  (ServeHTTP (H := Sample.env) Sample.fm (Sample.get ("/srv" +:+ "/") [] [])
     Sample.world).1 <> Returned 0 None.
Proof.
  split; [reflexivity|].
  apply (redirect_target_is_final (H := Sample.env) Sample.fm
           (Sample.get ("/srv" +:+ "/") [] []) Sample.world "/srv" None).
  reflexivity.
Defined.

(** X26. A failed marshal or template execution leaves no trace in the
    response: [present] then returns 500 with the error, and neither a header
    nor a byte of the output produced before the failure is written. *)
Theorem failed_rendering_writes_nothing `{Env} (r : http.Request)
    (listing : Listing.t) (bc : Config) (w : World) (status : Z) (e : error) :
  (present r listing bc w).1 = Returned status (Some e) ->
  status = 500 /\
  writer (present r listing bc w).2 = writer w /\
  prefs (present r listing bc w).2 = prefs w.
Proof.
  intros Hout. pose proof (present_presented r listing bc w) as Hpresented.
  destruct (present r listing bc w) as [out w']. cbn [fst snd] in *. subst out.
  inversion Hpresented; subst. done.
Qed.

Lemma failed_rendering_writes_nothing_witness :
  Sample.brokenPage Sample.listing
    = ("<h1>", Some (mkError ErrOther "template: no such field")) /\
  writer (present (H := Sample.env) Sample.htmlRequest Sample.listing
            Sample.brokenConfig Sample.world).2 = http.freshWriter.
Proof.
  split; [reflexivity|].
  apply (failed_rendering_writes_nothing (H := Sample.env) Sample.htmlRequest
           Sample.listing Sample.brokenConfig Sample.world 500
           (mkError ErrOther "template: no such field")).
  reflexivity.
Defined.
